(** * EcoPath: the route evaluation and selection pipeline of [ecoPath-api/index.js]

    A shallow embedding of the backend's decision logic: the scoring helpers
    ([getAQIScore], [getDistanceScore], [calculateGreenIndex]), the geometry
    helper ([getRouteMidpoint]), the fault-tolerant wrappers around the solar
    and text-generation services, and the [/get-green-route] handler with its
    [try]/[catch].

    JavaScript numbers are IEEE 754 binary64 values, so they are modelled by
    Rocq's primitive floats: [*], [+], [/], [<=] and [<] below are the very
    operations the JavaScript engine performs, rounding included.  The external
    services (routing, air quality, solar insight, text generation) and the
    polyline decoder are not part of the repository; they are the fields of a
    record of collaborators.  A service call is a state transformer over an
    abstract [World] that either resolves with a value or rejects with an
    error message. *)

From Stdlib Require Import Floats List Bool ZArith Lia String Ascii.
From Stdlib Require Uint63.
Import ListNotations.

#[local] Set Warnings "-inexact-float".
#[local] Open Scope string_scope.
#[local] Open Scope list_scope.
#[local] Open Scope float_scope.

(** ** JavaScript numbers *)

(** [ToBoolean] on a number: [0], [-0] and [NaN] are falsy. *)
Definition js_truthy (x : float) : bool := negb (PrimFloat.is_zero x || is_nan x).

(** [v || d] where [v] is a number or [undefined] ([None]). *)
Definition js_or (v : option float) (d : float) : float :=
  match v with
  | Some x => if js_truthy x then x else d
  | None => d
  end.

(** [x > y] and [x >= y]: IEEE comparisons, false as soon as one side is NaN. *)
Definition gtb (x y : float) : bool := y <? x.
Definition geb (x y : float) : bool := y <=? x.

Definition is_pos_zero (x : float) : bool :=
  match classify x with PZero => true | _ => false end.
Definition is_neg_zero (x : float) : bool :=
  match classify x with NZero => true | _ => false end.

(** [Math.min(...xs)] and [Math.max(...xs)] as ECMAScript defines them: the
    scan starts from +Infinity (resp. -Infinity), returns NaN at the first NaN
    and orders -0 below +0. *)
Fixpoint math_min_from (lowest : float) (xs : list float) : float :=
  match xs with
  | [] => lowest
  | x :: rest =>
      if is_nan x then nan
      else math_min_from
             (if (is_neg_zero x && is_pos_zero lowest) || (x <? lowest)
              then x else lowest) rest
  end.
Definition Math_min (xs : list float) : float := math_min_from infinity xs.

Fixpoint math_max_from (highest : float) (xs : list float) : float :=
  match xs with
  | [] => highest
  | x :: rest =>
      if is_nan x then nan
      else math_max_from
             (if (is_pos_zero x && is_neg_zero highest) || gtb x highest
              then x else highest) rest
  end.
Definition Math_max (xs : list float) : float := math_max_from neg_infinity xs.

(** An array length as a number. *)
Definition length_number {A} (l : list A) : float :=
  of_uint63 (Uint63.of_Z (Z.of_nat (List.length l))).

(** ** Keys for the order of binary64 numbers

    [SFcompare], which specifies the comparisons of primitive floats, orders
    the values that are not NaN like the lexicographic order of these integer
    keys (both zeros share a key). *)

Definition sf_key (f : spec_float) : Z * Z * Z :=
  match f with
  | S754_nan => (0, 0, 0)%Z
  | S754_zero _ => (0, 0, 0)%Z
  | S754_infinity true => (-2, 0, 0)%Z
  | S754_infinity false => (2, 0, 0)%Z
  | S754_finite true m e => (-1, - e, Zneg m)%Z
  | S754_finite false m e => (1, e, Zpos m)%Z
  end.

Definition key_lt (a b : Z * Z * Z) : Prop :=
  let '(a1, a2, a3) := a in
  let '(b1, b2, b3) := b in
  (a1 < b1 \/ (a1 = b1 /\ (a2 < b2 \/ (a2 = b2 /\ a3 < b3))))%Z.

Definition sf_number (f : spec_float) : Prop := f <> S754_nan.

Definition key (x : float) : Z * Z * Z := sf_key (Prim2SF x).

(** [x] is a number: not NaN. *)
Definition number (x : float) : Prop := is_nan x = false.

(** ** Data *)

Record RoutePoint := { lat : float; lng : float }.

(** One entry of the routing service's [routes]: [polyline] and its
    [encodedPolyline] may be absent (the handler reads them with [?.]). *)
Record Polyline := { encodedPolyline : option string }.
Record CandidateRoute := {
  distanceMeters : float;
  duration : string;
  polyline : option Polyline
}.
Record RoutesResponse := { routes : option (list CandidateRoute) }.

(** The air-quality payload: [air.indexes?.[0]?.aqi].  The body is an
    object; a resolved body of [null], on which reading [air.indexes]
    throws, lies outside these types (so do a [null] routing body and a
    [null] entry of [routes]). *)
Record AirIndex := { index_aqi : option float }.
Record AirData := { indexes : option (list AirIndex) }.

(** The solar payload:
    [response.data?.solarPotential?.wholeRoofStats?.yearlySunlightHours]. *)
Record WholeRoofStats := { yearlySunlightHours : option float }.
Record SolarPotential := { wholeRoofStats : option WholeRoofStats }.
Record SolarData := { solarPotential : option SolarPotential }.
Record SolarResponse := { data : option SolarData }.

Record Solar := { solarIndex : float; shadeLabel : string }.

Record EvaluatedRoute := {
  routeIndex : nat;
  ev_distanceMeters : float;
  ev_duration : string;
  aqi : float;
  greenIndex : float;
  solar : Solar;
  ev_polyline : option Polyline
}.

(** The object handed to [getGeminiExplanation]. *)
Record ExplanationData := {
  x_distanceMeters : float;
  x_aqi : float;
  x_greenIndex : float;
  x_shadeLabel : string;
  avgAQI : float;
  minAQI : float;
  maxAQI : float
}.

(** What the handler sends: [res.json({...})], or
    [res.status(500).json({ error, details })]. *)
Inductive Response :=
| Success (message : string) (selected_route : EvaluatedRoute)
          (alternative_routes : list EvaluatedRoute) (explanation : string)
| Failure (status : nat) (error details : string).

(** ** Effects: awaited calls that resolve or reject *)

Module Eff.
Section Monad.
Context {World : Type}.

Definition M (A : Type) : Type := World -> (string + A) * World.

Definition ret {A} (a : A) : M A := fun w => (inr a, w).

Definition throw {A} (msg : string) : M A := fun w => (inl msg, w).

Definition bind {A B} (m : M A) (k : A -> M B) : M B :=
  fun w =>
    match m w with
    | (inr a, w') => k a w'
    | (inl e, w') => (inl e, w')
    end.

(** [try { m } catch { h }]: the handler sees the world the failed call left. *)
Definition try_catch {A} (m : M A) (h : string -> M A) : M A :=
  fun w =>
    match m w with
    | (inr a, w') => (inr a, w')
    | (inl e, w') => h e w'
    end.

(** A synchronous computation that returns or throws. *)
Definition lift {A} (r : string + A) : M A := fun w => (r, w).

End Monad.
#[global] Arguments M : clear implicits.
End Eff.
Import Eff.

Declare Scope eff_scope.
Delimit Scope eff_scope with eff.
Notation "x <- m ;; k" := (bind m (fun x => k))
  (at level 61, m at next level, right associativity) : eff_scope.
#[local] Open Scope eff_scope.

(** The collaborators the backend calls but does not define. *)
Record Collaborators (World : Type) := {
  (** [polyline.decode] of [@mapbox/polyline]: the [[lat, lng]] pairs. *)
  decode : string -> list (float * float);
  (** [axios.post] to the routes service; resolves with [response.data]. *)
  computeRoutes : string -> string -> M World RoutesResponse;
  (** [axios.post] to the air-quality service; resolves with [response.data]. *)
  currentConditions : float -> float -> M World AirData;
  (** [axios.get] to the solar service; resolves with [response]. *)
  buildingInsights : float -> float -> M World SolarResponse;
  (** [model.generateContent(prompt)] then [result.response.text()]. *)
  generateContent : string -> M World string;
  (** How a template literal prints a number. *)
  numberToString : float -> string
}.
Arguments decode {World}.
Arguments computeRoutes {World}.
Arguments currentConditions {World}.
Arguments buildingInsights {World}.
Arguments generateContent {World}.
Arguments numberToString {World}.

(** The messages of the [TypeError]s the engine (V8) raises in the handler. *)
Definition reduce_empty_msg : string :=
  "Reduce of empty array with no initial value".
Definition undefined_index_msg : string :=
  "Cannot read properties of undefined (reading '0')".
Definition undefined_length_msg : string :=
  "Cannot read properties of undefined (reading 'length')".

(** ** Scoring engine *)

Definition getAQIScore (aqi : float) : float :=
  if aqi <=? 50 then 100
  else if aqi <=? 100 then 80
  else if aqi <=? 200 then 60
  else if aqi <=? 300 then 40
  else if aqi <=? 400 then 20
  else 5.

Definition getDistanceScore (distanceMeters : float) : float :=
  if distanceMeters <=? 2000 then 100
  else if distanceMeters <=? 5000 then 70
  else if distanceMeters <=? 10000 then 40
  else 10.

Definition calculateGreenIndex (distanceMeters aqi solarIndex : float) : float :=
  let aqiScore := getAQIScore aqi in
  let distanceScore := getDistanceScore distanceMeters in
  aqiScore * 0.6 + solarIndex * 0.3 + distanceScore * 0.1.

(** ** Signal extraction *)

(** [air.indexes?.[0]?.aqi]: [undefined] when [indexes] is absent or empty,
    or when its first entry has no [aqi]. *)
Definition firstAqi (air : AirData) : option float :=
  match indexes air with
  | Some (first :: _) => index_aqi first
  | _ => None
  end.

(** [air.indexes?.[0]?.aqi || 100], the handler's [aqi]. *)
Definition extractAqi (air : AirData) : float := js_or (firstAqi air) 100.

(** [response.data?.solarPotential?.wholeRoofStats?.yearlySunlightHours]. *)
Definition reportedSunHours (response : SolarResponse) : option float :=
  match data response with
  | Some d =>
      match solarPotential d with
      | Some p =>
          match wholeRoofStats p with
          | Some s => yearlySunlightHours s
          | None => None
          end
      | None => None
      end
  | None => None
  end.

(** The body of [getSolarIndex]'s [try] once the response is there. *)
Definition solarOfResponse (response : SolarResponse) : Solar :=
  let sunHours := js_or (reportedSunHours response) 2000 in
  let solarIndex :=
    if sunHours <? 1500 then 50
    else if sunHours <? 2000 then 40
    else 30 in
  {| solarIndex := solarIndex;
     shadeLabel :=
       if geb solarIndex 45 then "High Shade"
       else if geb solarIndex 35 then "Moderate Shade"
       else "Low Shade" |}.

(** The value of [getSolarIndex]'s [catch], also the handler's initial
    [solar]. *)
Definition defaultSolar : Solar :=
  {| solarIndex := 30; shadeLabel := "Unknown" |}.

(** The sentence [getGeminiExplanation]'s [catch] returns. *)
Definition fallbackExplanation : string :=
  "This route is recommended because it has cleaner air, a reasonable walking distance, and better shade for comfort.".

Definition nl : string := String (ascii_of_nat 10) EmptyString.

(** ** Selection *)

(** The callback of [evaluatedRoutes.reduce]:
    [(a, b) => b.greenIndex > a.greenIndex ? b : a]. *)
Definition greener (a b : EvaluatedRoute) : EvaluatedRoute :=
  if gtb (greenIndex b) (greenIndex a) then b else a.

(** [Array.prototype.reduce] without an initial value: the first element
    seeds the fold; an empty array throws. *)
Definition reduce1 {A} (f : A -> A -> A) (l : list A) : string + A :=
  match l with
  | [] => inl reduce_empty_msg
  | x :: xs => inr (fold_left f xs x)
  end.

Definition selectBest (evaluatedRoutes : list EvaluatedRoute)
  : string + EvaluatedRoute :=
  reduce1 greener evaluatedRoutes.

(** [evaluatedRoutes.reduce((sum, r) => sum + r.aqi, 0) / evaluatedRoutes.length] *)
Definition averageAqi (evaluatedRoutes : list EvaluatedRoute) : float :=
  fold_left (fun sum r => sum + aqi r) evaluatedRoutes 0
  / length_number evaluatedRoutes.

(** A record whose Green Index is a number (not NaN); every record the
    handler builds is one, see [evaluateRoute_scored]. *)
Definition scored (r : EvaluatedRoute) : Prop :=
  number (greenIndex r).

(** [best] sits at position [k] of [l], no route of [l] has a higher Green
    Index, and every route before position [k] has a strictly lower one. *)
Definition first_maximum (l : list EvaluatedRoute) (k : nat)
    (best : EvaluatedRoute) : Prop :=
  nth_error l k = Some best
  /\ forall j r,
      nth_error l j = Some r ->
      (greenIndex r <=? greenIndex best) = true
      /\ ((j < k)%nat -> (greenIndex r <? greenIndex best) = true).

(** The object literal the handler passes to [getGeminiExplanation]. *)
Definition summaryOf (bestRoute : EvaluatedRoute)
    (evaluatedRoutes : list EvaluatedRoute) : ExplanationData :=
  {| x_distanceMeters := ev_distanceMeters bestRoute;
     x_aqi := aqi bestRoute;
     x_greenIndex := greenIndex bestRoute;
     x_shadeLabel := shadeLabel (solar bestRoute);
     avgAQI := averageAqi evaluatedRoutes;
     minAQI := Math_min (map aqi evaluatedRoutes);
     maxAQI := Math_max (map aqi evaluatedRoutes) |}.

(** ** The pipeline over a given set of collaborators *)

Section Pipeline.
Context {World : Type} (env : Collaborators World).

(** [getRouteMidpoint]: [null] ([inr None]) for a falsy path, that is an
    absent or empty one; otherwise the decoded point at
    [Math.floor(points.length / 2)].  Reading [points[mid][0]] when
    [points[mid]] is [undefined] throws. *)
Definition getRouteMidpoint (encodedPolyline : option string)
  : string + option RoutePoint :=
  match encodedPolyline with
  | None => inr None
  | Some path =>
      if String.eqb path "" then inr None
      else
        let points := decode env path in
        let mid := Nat.div (List.length points) 2 in
        match nth_error points mid with
        | Some (la, ln) => inr (Some {| lat := la; lng := ln |})
        | None => inl undefined_index_msg
        end
  end.

(** [getAirQuality]: no [try] around the call, a rejection propagates. *)
Definition getAirQuality (lat lng : float) : M World AirData :=
  currentConditions env lat lng.

(** [getSolarIndex]: any rejection inside the [try] yields the default. *)
Definition getSolarIndex (lat lng : float) : M World Solar :=
  try_catch
    (response <- buildingInsights env lat lng ;;
     ret (solarOfResponse response))
    (fun _ => ret defaultSolar).

(** The prompt of [getGeminiExplanation] (a template literal). *)
Definition prompt (d : ExplanationData) : string :=
  String.concat nl
    [ "";
      "You are explaining to a normal person why ONE walking route was chosen over others.";
      "";
      "Selected route:";
      String.append "- Distance: "
        (String.append (numberToString env (x_distanceMeters d)) " meters");
      String.append "- AQI: " (numberToString env (x_aqi d));
      String.append "- Shade: " (x_shadeLabel d);
      "";
      "Other routes had:";
      "- Higher AQI (more polluted air)";
      "- Similar or shorter distance but worse air quality";
      "";
      "Explain clearly WHY this route is healthier.";
      "Focus mainly on air quality.";
      "Mention distance .";
      "Use max 2 simple sentences.";
      "";
      "" ].

Definition getGeminiExplanation (d : ExplanationData) : M World string :=
  try_catch (generateContent env (prompt d))
            (fun _ => ret fallbackExplanation).

(** [route.polyline?.encodedPolyline] *)
Definition encodedPathOf (route : CandidateRoute) : option string :=
  match polyline route with
  | Some p => encodedPolyline p
  | None => None
  end.

(** One turn of the handler's [for] loop: the record pushed for [routes[i]]. *)
Definition evaluateRoute (i : nat) (route : CandidateRoute)
  : M World EvaluatedRoute :=
  midpoint <- lift (getRouteMidpoint (encodedPathOf route)) ;;
  signals <-
    match midpoint with
    | Some p =>
        air <- getAirQuality (lat p) (lng p) ;;
        s <- getSolarIndex (lat p) (lng p) ;;
        ret (extractAqi air, s)
    | None => ret (100, defaultSolar)
    end ;;
  ret {| routeIndex := i;
         ev_distanceMeters := distanceMeters route;
         ev_duration := duration route;
         aqi := fst signals;
         greenIndex :=
           calculateGreenIndex (distanceMeters route) (fst signals)
                               (solarIndex (snd signals));
         solar := snd signals;
         ev_polyline := polyline route |}.

(** The [for] loop from index [i] on, [evaluatedRoutes] being the array
    filled so far. *)
Fixpoint evaluateRoutes (i : nat) (routes : list CandidateRoute)
    (evaluatedRoutes : list EvaluatedRoute) : M World (list EvaluatedRoute) :=
  match routes with
  | [] => ret evaluatedRoutes
  | route :: rest =>
      e <- evaluateRoute i route ;;
      evaluateRoutes (S i) rest (evaluatedRoutes ++ [e])
  end.

(** The [try] block of the [/get-green-route] handler. *)
Definition greenRouteTry (origin destination : string) : M World Response :=
  routeResponse <- computeRoutes env origin destination ;;
  routes <- lift (match routes routeResponse with
                  | Some rs => inr rs
                  | None => inl undefined_length_msg
                  end) ;;
  evaluatedRoutes <- evaluateRoutes 0 routes [] ;;
  bestRoute <- lift (selectBest evaluatedRoutes) ;;
  explanation <-
    getGeminiExplanation (summaryOf bestRoute evaluatedRoutes) ;;
  ret (Success "Green corridor selected" bestRoute evaluatedRoutes explanation).

(** The handler: the [catch] turns any rejection into the 500 answer that
    carries [error.message] (it also logs the message with [console.error],
    which is not modelled). *)
Definition getGreenRoute (origin destination : string)
  : World -> Response * World :=
  fun w =>
    match greenRouteTry origin destination w with
    | (inr response, w') => (response, w')
    | (inl message, w') =>
        (Failure 500 "Failed to calculate green corridor" message, w')
    end.

(** Conditions on the collaborators under which nothing fatal happens. *)

(** The air-quality service answers every call. *)
Definition air_up : Prop :=
  forall la ln (w : World),
    exists air w', currentConditions env la ln w = (inr air, w').

(** What [polyline.decode] of [@mapbox/polyline] guarantees: its loop pushes
    one point per turn while input remains, so it yields no point for the
    empty string and at least one for any other string. *)
Definition decoder_yields_points : Prop :=
  forall path, decode env path = [] <-> path = "".

(** Every route's path is absent, empty or decodes to at least one point. *)
Definition paths_resolve (rs : list CandidateRoute) : Prop :=
  forall route, In route rs ->
    exists midpoint, getRouteMidpoint (encodedPathOf route) = inr midpoint.

End Pipeline.

(** ** Proof automation for the order lemmas *)

Ltac lt_case :=
  split;
  [ intros H; try discriminate H; repeat split; try discriminate; lia
  | intros (H1 & H2 & H3); try congruence; try reflexivity; exfalso; lia ].

Ltac eq_case :=
  split;
  [ intros H; discriminate H
  | intros (H1 & H2 & H3); exfalso; injection H3; intros; lia ].

Ltac by_keys x y :=
  destruct (key x) as [[?a ?b] ?c]; destruct (key y) as [[?a ?b] ?c];
  unfold key_lt in *.

(** ** Sample collaborators

    Concrete services over a world that logs the calls made, in order.  The
    routing service answers with three routes whose sampled points report
    the signals of the documented example: (distance, aqi, sunlight hours) =
    (1000, 40, 2500), (1200, 90, 1700), (900, 250, 1000). *)

Module Scenario.

Definition World : Type := list string.

Definition resolves {A} (call : string) (a : A) : M World A :=
  fun w => (inr a, w ++ [call]).
Definition rejects {A} (call message : string) : M World A :=
  fun w => (inl message, w ++ [call]).

Definition pathOf (s : string) : option Polyline :=
  Some {| encodedPolyline := Some s |}.

Definition routeA : CandidateRoute :=
  {| distanceMeters := 1000; duration := "720s"; polyline := pathOf "a" |}.
Definition routeB : CandidateRoute :=
  {| distanceMeters := 1200; duration := "860s"; polyline := pathOf "b" |}.
Definition routeC : CandidateRoute :=
  {| distanceMeters := 900; duration := "650s"; polyline := pathOf "c" |}.

Definition threeRoutes : list CandidateRoute := [routeA; routeB; routeC].

(** A stand-in decoder with the property of the real one: no point for the
    empty string, at least one for any other; one, two and three points for
    the three paths. *)
Definition sampleDecode (path : string) : list (float * float) :=
  if String.eqb path "" then []
  else if String.eqb path "a" then [(1, 1)]
  else if String.eqb path "b" then [(2, 2); (2.5, 2.5)]
  else if String.eqb path "c" then [(3, 3); (3.5, 3.5); (4, 4)]
  else [(0, 0)].

Definition airReport (v : float) : AirData :=
  {| indexes := Some [ {| index_aqi := Some v |} ] |}.

Definition sampleAir (lat lng : float) : M World AirData :=
  resolves "air"
    (if lat =? 1 then airReport 40
     else if lat =? 2.5 then airReport 90
     else if lat =? 3.5 then airReport 250
     else {| indexes := None |}).

Definition sunReport (hours : option float) : SolarResponse :=
  {| data := Some {| solarPotential := Some {| wholeRoofStats :=
       Some {| yearlySunlightHours := hours |} |} |} |}.

Definition sampleSolar (lat lng : float) : M World SolarResponse :=
  resolves "solar"
    (if lat =? 1 then sunReport (Some 2500)
     else if lat =? 2.5 then sunReport (Some 1700)
     else if lat =? 3.5 then sunReport (Some 1000)
     else {| data := None |}).

Definition sample : Collaborators World :=
  {| decode := sampleDecode;
     computeRoutes := fun _ _ =>
       resolves "routes" {| routes := Some threeRoutes |};
     currentConditions := sampleAir;
     buildingInsights := sampleSolar;
     generateContent := fun _ => resolves "gemini" "Cleaner air on this walk.";
     numberToString := fun _ => "#" |}.

Definition withRoutes (c : Collaborators World)
    (f : string -> string -> M World RoutesResponse) : Collaborators World :=
  {| decode := decode c; computeRoutes := f;
     currentConditions := currentConditions c;
     buildingInsights := buildingInsights c;
     generateContent := generateContent c;
     numberToString := numberToString c |}.

Definition withAir (c : Collaborators World)
    (f : float -> float -> M World AirData) : Collaborators World :=
  {| decode := decode c; computeRoutes := computeRoutes c;
     currentConditions := f;
     buildingInsights := buildingInsights c;
     generateContent := generateContent c;
     numberToString := numberToString c |}.

Definition withSolar (c : Collaborators World)
    (f : float -> float -> M World SolarResponse) : Collaborators World :=
  {| decode := decode c; computeRoutes := computeRoutes c;
     currentConditions := currentConditions c;
     buildingInsights := f;
     generateContent := generateContent c;
     numberToString := numberToString c |}.

Definition withGemini (c : Collaborators World)
    (f : string -> M World string) : Collaborators World :=
  {| decode := decode c; computeRoutes := computeRoutes c;
     currentConditions := currentConditions c;
     buildingInsights := buildingInsights c;
     generateContent := f;
     numberToString := numberToString c |}.

(** The routing service is down. *)
Definition routingDown : Collaborators World :=
  withRoutes sample
    (fun _ _ => rejects "routes" "Request failed with status code 403").

(** The routing service finds no route. *)
Definition noRoute : Collaborators World :=
  withRoutes sample (fun _ _ => resolves "routes" {| routes := Some [] |}).

(** The air-quality service fails at the second route's point. *)
Definition airDownAtSecond : Collaborators World :=
  withAir sample
    (fun lat lng =>
       if lat =? 2.5 then rejects "air" "Network Error" else sampleAir lat lng).

(** The solar service is down. *)
Definition solarDown : Collaborators World :=
  withSolar sample
    (fun _ _ => rejects "solar" "Request failed with status code 404").

(** The solar service fails at the second route's point only. *)
Definition solarDownAtSecond : Collaborators World :=
  withSolar sample
    (fun lat lng =>
       if lat =? 2.5 then rejects "solar" "Request failed with status code 404"
       else sampleSolar lat lng).

(** The solar service answers every call with a body that has no
    [solarPotential]. *)
Definition solarMalformed : Collaborators World :=
  withSolar sample
    (fun _ _ => resolves "solar" {| data := Some {| solarPotential := None |} |}).

(** The text-generation service is down. *)
Definition geminiDown : Collaborators World :=
  withGemini sample (fun _ => rejects "gemini" "fetch failed").

(** The air-quality service reports an index of 0 everywhere. *)
Definition zeroAqi : Collaborators World :=
  withAir sample (fun _ _ => resolves "air" (airReport 0)).

(** The three records of the documented example, as the loop builds them. *)
Definition exampleRecord (i : nat) (d a g s : float) (label : string)
    (dur path : string) : EvaluatedRoute :=
  {| routeIndex := i; ev_distanceMeters := d; ev_duration := dur;
     aqi := a; greenIndex := g;
     solar := {| solarIndex := s; shadeLabel := label |};
     ev_polyline := pathOf path |}.

Definition exampleBest : EvaluatedRoute :=
  exampleRecord 0 1000 40 79 30 "Low Shade" "720s" "a".

Definition exampleRoutes : list EvaluatedRoute :=
  [ exampleBest;
    exampleRecord 1 1200 90 70 40 "Moderate Shade" "860s" "b";
    exampleRecord 2 900 250 49 50 "High Shade" "650s" "c" ].

End Scenario.

(** ** Observing the calls

    To state which services a request calls, and in which order, the
    collaborators are wrapped so that every call also appends its kind to a
    log kept beside the world.  The wrapped services answer as the given
    ones do. *)

Inductive Call := RoutesCall | AirCall | SolarCall | TextCall.

Definition traced {World A} (c : Call) (m : M World A)
  : M (World * list Call) A :=
  fun s => let (r, w') := m (fst s) in (r, (w', snd s ++ [c])).

Definition instrument {World} (env : Collaborators World)
  : Collaborators (World * list Call) :=
  {| decode := decode env;
     computeRoutes := fun origin destination =>
       traced RoutesCall (computeRoutes env origin destination);
     currentConditions := fun lat lng =>
       traced AirCall (currentConditions env lat lng);
     buildingInsights := fun lat lng =>
       traced SolarCall (buildingInsights env lat lng);
     generateContent := fun text => traced TextCall (generateContent env text);
     numberToString := numberToString env |}.

(** The calls one loop turn makes from world [w]. *)
Definition callsOfRoute {World} (env : Collaborators World)
    (route : CandidateRoute) (w : World) : list Call :=
  match getRouteMidpoint env (encodedPathOf route) with
  | inr (Some p) =>
      match currentConditions env (lat p) (lng p) w with
      | (inr _, _) => [AirCall; SolarCall]
      | (inl _, _) => [AirCall]
      end
  | _ => []
  end.

(** The calls of a loop turn that resolves: none without a sample point,
    else the air-quality call followed by the solar call. *)
Definition sampledCalls {World} (env : Collaborators World)
    (route : CandidateRoute) : list Call :=
  match getRouteMidpoint env (encodedPathOf route) with
  | inr (Some _) => [AirCall; SolarCall]
  | _ => []
  end.

(** * Properties *)

(** ** The order of binary64 numbers

    The comparisons of primitive floats are specified through [SFcompare];
    here that specification is read as a lexicographic order on integer
    keys, which gives the usual laws of a total preorder on the values that
    are not NaN. *)

Module FloatOrder.

Lemma pos_cont_lt m1 m2 :
  Pos.compare_cont Eq m1 m2 = Lt <-> (Zpos m1 < Zpos m2)%Z.
Proof.
  change (Pos.compare_cont Eq m1 m2) with (Pos.compare m1 m2).
  rewrite Pos.compare_lt_iff. lia.
Qed.

Lemma pos_cont_gt m1 m2 :
  Pos.compare_cont Eq m1 m2 = Gt <-> (Zpos m2 < Zpos m1)%Z.
Proof.
  change (Pos.compare_cont Eq m1 m2) with (Pos.compare m1 m2).
  rewrite Pos.compare_gt_iff. lia.
Qed.

Lemma pos_cont_eq m1 m2 : Pos.compare_cont Eq m1 m2 = Eq <-> m1 = m2.
Proof.
  change (Pos.compare_cont Eq m1 m2) with (Pos.compare m1 m2).
  apply Pos.compare_eq_iff.
Qed.

Lemma split_mantissas m1 m2 :
  (Pos.compare_cont Eq m1 m2 = Eq /\ m1 = m2)
  \/ (Pos.compare_cont Eq m1 m2 = Lt /\ (Zpos m1 < Zpos m2)%Z)
  \/ (Pos.compare_cont Eq m1 m2 = Gt /\ (Zpos m2 < Zpos m1)%Z).
Proof.
  destruct (Pos.compare_cont Eq m1 m2) eqn:Hm.
  - left. split; [reflexivity|]. apply pos_cont_eq, Hm.
  - right. left. split; [reflexivity|]. apply (proj1 (pos_cont_lt _ _)), Hm.
  - right. right. split; [reflexivity|]. apply (proj1 (pos_cont_gt _ _)), Hm.
Qed.

Lemma SFcompare_lt f1 f2 :
  SFcompare f1 f2 = Some Lt <->
  sf_number f1 /\ sf_number f2 /\ key_lt (sf_key f1) (sf_key f2).
Proof.
  unfold sf_number.
  destruct f1 as [s1|s1| |s1 m1 e1], f2 as [s2|s2| |s2 m2 e2];
    try destruct s1; try destruct s2; cbn [SFcompare sf_key key_lt];
    try solve [lt_case].
  all: destruct (Z.compare_spec e1 e2) as [He|He|He]; cbn [CompOpp];
    try solve [lt_case].
  all: destruct (split_mantissas m1 m2) as [[-> Hm]|[[-> Hm]|[-> Hm]]];
    cbn [CompOpp]; solve [lt_case].
Qed.

Lemma SFcompare_eq f1 f2 :
  SFcompare f1 f2 = Some Eq <->
  sf_number f1 /\ sf_number f2 /\ sf_key f1 = sf_key f2.
Proof.
  unfold sf_number.
  destruct f1 as [s1|s1| |s1 m1 e1], f2 as [s2|s2| |s2 m2 e2];
    try destruct s1; try destruct s2; cbn [SFcompare sf_key];
    try solve [split;
               [ intros H; try discriminate H; repeat split;
                 discriminate || reflexivity
               | intros (H1 & H2 & H3); try congruence; try reflexivity ]].
  all: destruct (Z.compare_spec e1 e2) as [He|He|He]; cbn [CompOpp];
    try solve [eq_case].
  all: destruct (split_mantissas m1 m2) as [[-> Hm]|[[-> Hm]|[-> Hm]]];
    cbn [CompOpp]; try solve [eq_case].
  all: subst; split; [ intros _; repeat split; discriminate | reflexivity ].
Qed.

Lemma number_iff x : number x <-> sf_number (Prim2SF x).
Proof.
  unfold number, is_nan. rewrite FloatAxioms.eqb_spec. unfold SFeqb.
  pose proof (SFcompare_eq (Prim2SF x) (Prim2SF x)) as E.
  destruct (SFcompare (Prim2SF x) (Prim2SF x)) as [[| |]|] eqn:C; cbn.
  - split; [intros _; apply E; reflexivity | reflexivity].
  - split; [discriminate|]. intros N.
    assert (Some Lt = Some Eq) as A by (apply E; auto). discriminate A.
  - split; [discriminate|]. intros N.
    assert (Some Gt = Some Eq) as A by (apply E; auto). discriminate A.
  - split; [discriminate|]. intros N.
    assert (@None comparison = Some Eq) as A by (apply E; auto). discriminate A.
Qed.

Lemma ltb_iff x y :
  (x <? y) = true <-> number x /\ number y /\ key_lt (key x) (key y).
Proof.
  rewrite FloatAxioms.ltb_spec, !number_iff. unfold SFltb, key.
  rewrite <- SFcompare_lt.
  destruct (SFcompare (Prim2SF x) (Prim2SF y)) as [[| |]|];
    split; intros H; reflexivity || discriminate H.
Qed.

Lemma leb_iff x y :
  (x <=? y) = true <->
  number x /\ number y /\ (key_lt (key x) (key y) \/ key x = key y).
Proof.
  rewrite FloatAxioms.leb_spec, !number_iff. unfold SFleb, key.
  pose proof (SFcompare_lt (Prim2SF x) (Prim2SF y)) as L.
  pose proof (SFcompare_eq (Prim2SF x) (Prim2SF y)) as E.
  destruct (SFcompare (Prim2SF x) (Prim2SF y)) as [[| |]|].
  - split; [intros _|reflexivity].
    destruct (proj1 E eq_refl) as (? & ? & ?). auto.
  - split; [intros _|reflexivity].
    destruct (proj1 L eq_refl) as (? & ? & ?). auto.
  - split; [discriminate|]. intros (N1 & N2 & [K|K]).
    + assert (Some Gt = Some Lt) as A by (apply L; auto). discriminate A.
    + assert (Some Gt = Some Eq) as A by (apply E; auto). discriminate A.
  - split; [discriminate|]. intros (N1 & N2 & [K|K]).
    + assert (@None comparison = Some Lt) as A by (apply L; auto).
      discriminate A.
    + assert (@None comparison = Some Eq) as A by (apply E; auto).
      discriminate A.
Qed.

Lemma leb_refl x : number x -> (x <=? x) = true.
Proof. intros N. apply leb_iff. auto. Qed.

Lemma ltb_number_l x y : (x <? y) = true -> number x.
Proof. intros H. apply ltb_iff in H. tauto. Qed.

Lemma ltb_number_r x y : (x <? y) = true -> number y.
Proof. intros H. apply ltb_iff in H. tauto. Qed.

Lemma leb_number_l x y : (x <=? y) = true -> number x.
Proof. intros H. apply leb_iff in H. tauto. Qed.

Lemma leb_number_r x y : (x <=? y) = true -> number y.
Proof. intros H. apply leb_iff in H. tauto. Qed.

Lemma ltb_leb x y : (x <? y) = true -> (x <=? y) = true.
Proof.
  intros H. apply ltb_iff in H. apply leb_iff. tauto.
Qed.

(** Totality: of two numbers, the one that is not below is at least
    above. *)
Lemma not_ltb_leb x y :
  number x -> number y -> (x <? y) = false -> (y <=? x) = true.
Proof.
  intros Nx Ny H. apply leb_iff. repeat split; trivial.
  assert (~ key_lt (key x) (key y)) as K.
  { intros K. assert ((x <? y) = true) as T by (apply ltb_iff; auto).
    congruence. }
  by_keys x y.
  destruct (Z.eq_dec a a0), (Z.eq_dec b b0), (Z.eq_dec c c0); subst;
    (right; reflexivity) || (left; lia).
Qed.

Lemma ltb_not_leb x y : (x <? y) = true -> (y <=? x) = false.
Proof.
  intros H. apply ltb_iff in H. destruct H as (Nx & Ny & K).
  destruct (y <=? x) eqn:L; trivial.
  apply leb_iff in L. destruct L as (_ & _ & L). exfalso.
  by_keys x y. destruct L as [L|L]; [lia|]. injection L; intros; lia.
Qed.

Lemma ltb_trans x y z :
  (x <? y) = true -> (y <? z) = true -> (x <? z) = true.
Proof.
  intros H1 H2. apply ltb_iff in H1, H2. apply ltb_iff.
  destruct H1 as (Nx & Ny & K1), H2 as (_ & Nz & K2).
  repeat split; trivial.
  by_keys x y. destruct (key z) as [[a1 b1] c1]. lia.
Qed.

Lemma leb_ltb_trans x y z :
  (x <=? y) = true -> (y <? z) = true -> (x <? z) = true.
Proof.
  intros H1 H2. apply leb_iff in H1. apply ltb_iff in H2. apply ltb_iff.
  destruct H1 as (Nx & Ny & K1), H2 as (_ & Nz & K2).
  repeat split; trivial.
  by_keys x y. destruct (key z) as [[a1 b1] c1].
  destruct K1 as [K1|K1]; [lia|]. injection K1; intros; subst. lia.
Qed.

Lemma leb_trans x y z :
  (x <=? y) = true -> (y <=? z) = true -> (x <=? z) = true.
Proof.
  intros H1 H2. apply leb_iff in H1, H2. apply leb_iff.
  destruct H1 as (Nx & Ny & K1), H2 as (_ & Nz & K2).
  repeat split; trivial.
  by_keys x y. destruct (key z) as [[a1 b1] c1].
  destruct K1 as [K1|K1], K2 as [K2|K2];
    try (injection K1; intros; subst); try (injection K2; intros; subst);
    (right; reflexivity) || (left; lia).
Qed.

Lemma ltb_irrefl x : (x <? x) = false.
Proof.
  destruct (x <? x) eqn:H; trivial.
  apply ltb_iff in H. destruct H as (_ & _ & K). exfalso.
  destruct (key x) as [[a b] c]. unfold key_lt in K. lia.
Qed.

(** Numbers that compare strictly are different values. *)
Lemma ltb_neq x y : (x <? y) = true -> x <> y.
Proof.
  intros H E. subst y. rewrite ltb_irrefl in H. discriminate H.
Qed.

End FloatOrder.


(** ** Scoring engine *)

(** The two step functions only take the values of their tables. *)
Lemma getAQIScore_values aqi :
  In (getAQIScore aqi) [100; 80; 60; 40; 20; 5].
Proof.
  unfold getAQIScore.
  repeat match goal with
         | |- context [if ?c then _ else _] => destruct c
         end; cbn; tauto.
Qed.

Lemma getDistanceScore_values d :
  In (getDistanceScore d) [100; 70; 40; 10].
Proof.
  unfold getDistanceScore.
  repeat match goal with
         | |- context [if ?c then _ else _] => destruct c
         end; cbn; tauto.
Qed.

(** For the three solar indexes the weighted sum is computed without any
    rounding error: it is one of the whole numbers from 13 to 85. *)
Lemma green_index_range d aqi s :
  In s [30; 40; 50] ->
  (13 <=? calculateGreenIndex d aqi s) = true /\
  (calculateGreenIndex d aqi s <=? 85) = true.
Proof.
  intros Hs. unfold calculateGreenIndex.
  pose proof (getAQIScore_values aqi) as Ha.
  pose proof (getDistanceScore_values d) as Hd.
  cbn [In] in Hs, Ha, Hd.
  repeat match goal with
         | H : _ \/ _ |- _ => destruct H as [H|H]
         | H : False |- _ => destruct H
         end; rewrite <- Ha, <- Hd, <- Hs; vm_compute; split; reflexivity.
Qed.

(** Hence the weighted sum is exact: ten times the Green Index is
    [6 * aqiScore + 3 * solarIndex + distanceScore]. *)
Lemma green_index_exact d aqi s :
  In s [30; 40; 50] ->
  calculateGreenIndex d aqi s * 10
  = getAQIScore aqi * 6 + s * 3 + getDistanceScore d.
Proof.
  intros Hs. unfold calculateGreenIndex.
  pose proof (getAQIScore_values aqi) as Ha.
  pose proof (getDistanceScore_values d) as Hd.
  cbn [In] in Hs, Ha, Hd.
  repeat match goal with
         | H : _ \/ _ |- _ => destruct H as [H|H]
         | H : False |- _ => destruct H
         end; rewrite <- Ha, <- Hd, <- Hs; vm_compute; reflexivity.
Qed.

Lemma green_index_number d aqi s :
  In s [30; 40; 50] -> number (calculateGreenIndex d aqi s).
Proof.
  intros Hs. destruct (green_index_range d aqi s Hs) as [_ H].
  exact (FloatOrder.leb_number_l _ _ H).
Qed.

(** C1, as the code has it.  The Green Index is
    [aqiScore * 0.6 + solarIndex * 0.3 + distanceScore * 0.1] with the solar
    index taken as it is; [getAQIScore] maps [aqi <= 50] to 100, [<= 100] to
    80, [<= 200] to 60, [<= 300] to 40, [<= 400] to 20 and anything larger
    to 5; [getDistanceScore] maps [<= 2000] to 100, [<= 5000] to 70,
    [<= 10000] to 40 and anything larger to 10; every boundary belongs to
    the nearer bucket.  On (distance, aqi, solarIndex) = (1000, 40, 30),
    (1200, 90, 40) and (900, 250, 50) it yields 79, 70 and 49: an aqi of 250
    lies in the [<= 300] bucket, whose score is 40.  For the solar indexes
    30, 40 and 50 the binary64 computation is exact: ten times the result
    is [6 * aqiScore + 3 * solarIndex + distanceScore]. *)
Theorem C1_green_index_formula :
  (forall d aqi s,
      calculateGreenIndex d aqi s
      = getAQIScore aqi * 0.6 + s * 0.3 + getDistanceScore d * 0.1)
  /\ (forall aqi,
        ((aqi <=? 50) = true -> getAQIScore aqi = 100)
        /\ ((50 <? aqi) = true -> (aqi <=? 100) = true -> getAQIScore aqi = 80)
        /\ ((100 <? aqi) = true -> (aqi <=? 200) = true -> getAQIScore aqi = 60)
        /\ ((200 <? aqi) = true -> (aqi <=? 300) = true -> getAQIScore aqi = 40)
        /\ ((300 <? aqi) = true -> (aqi <=? 400) = true -> getAQIScore aqi = 20)
        /\ ((400 <? aqi) = true -> getAQIScore aqi = 5))
  /\ (forall d,
        ((d <=? 2000) = true -> getDistanceScore d = 100)
        /\ ((2000 <? d) = true -> (d <=? 5000) = true -> getDistanceScore d = 70)
        /\ ((5000 <? d) = true -> (d <=? 10000) = true -> getDistanceScore d = 40)
        /\ ((10000 <? d) = true -> getDistanceScore d = 10))
  /\ (forall d aqi s,
        In s [30; 40; 50] ->
        calculateGreenIndex d aqi s * 10
        = getAQIScore aqi * 6 + s * 3 + getDistanceScore d)
  /\ map getAQIScore [50; 100; 200; 300; 400] = [100; 80; 60; 40; 20]
  /\ map getDistanceScore [2000; 5000; 10000] = [100; 70; 40]
  /\ calculateGreenIndex 1000 40 30 = 79
  /\ calculateGreenIndex 1200 90 40 = 70
  /\ calculateGreenIndex 900 250 50 = 49.
Proof.
  assert (forall x b c, (b <? x) = true -> (b <=? c) = true -> (x <=? b) = false)
    as below.
  { intros x b c H _. apply FloatOrder.ltb_not_leb, H. }
  assert (forall x b c, (c <? x) = true -> (b <=? c) = true -> (x <=? b) = false)
    as far.
  { intros x b c H L. apply FloatOrder.ltb_not_leb.
    apply (FloatOrder.leb_ltb_trans _ _ _ L H). }
  split; [reflexivity|].
  split; [|split; [|split; [exact green_index_exact|]]];
    [| |repeat split; vm_compute; reflexivity].
  - intros aqi. unfold getAQIScore. repeat split.
    + intros H. rewrite H. reflexivity.
    + intros L H. rewrite (below _ _ 50 L), H by reflexivity. reflexivity.
    + intros L H.
      rewrite (far _ 50 100 L), (below _ _ 100 L), H by reflexivity.
      reflexivity.
    + intros L H.
      rewrite (far _ 50 200 L), (far _ 100 200 L), (below _ _ 200 L), H
        by reflexivity.
      reflexivity.
    + intros L H.
      rewrite (far _ 50 300 L), (far _ 100 300 L), (far _ 200 300 L),
        (below _ _ 300 L), H by reflexivity.
      reflexivity.
    + intros L.
      rewrite (far _ 50 400 L), (far _ 100 400 L), (far _ 200 400 L),
        (far _ 300 400 L), (below _ _ 400 L) by reflexivity.
      reflexivity.
  - intros d. unfold getDistanceScore. repeat split.
    + intros H. rewrite H. reflexivity.
    + intros L H. rewrite (below _ _ 2000 L), H by reflexivity. reflexivity.
    + intros L H.
      rewrite (far _ 2000 5000 L), (below _ _ 5000 L), H by reflexivity.
      reflexivity.
    + intros L.
      rewrite (far _ 2000 10000 L), (far _ 5000 10000 L),
        (below _ _ 10000 L) by reflexivity.
      reflexivity.
Qed.

Lemma C1_witness :
  getAQIScore 250 = 40 /\ getAQIScore 90 = 80 /\ getDistanceScore 1200 = 100.
Proof.
  destruct C1_green_index_formula as (_ & Ha & Hd & _).
  split; [|split].
  - destruct (Ha 250) as (_ & _ & _ & H & _). apply H; reflexivity.
  - destruct (Ha 90) as (_ & H & _). apply H; reflexivity.
  - destruct (Hd 1200) as (H & _). apply H; reflexivity.
Defined.

(** C1 as stated fails on its third example: for (distance, aqi,
    solarIndex) = (900, 250, 50) the code returns 49, not 61. *)
Lemma C1_third_example_is_not_61 :
  calculateGreenIndex 900 250 50 = 49 /\ calculateGreenIndex 900 250 50 <> 61.
Proof.
  split; [vm_compute; reflexivity|].
  apply FloatOrder.ltb_neq. vm_compute. reflexivity.
Qed.

(** C3.  For a route with [aqi >= 0], [distanceMeters >= 0] and a solar index
    among 30, 40 and 50, the Green Index lies between 0 and 100 (the two
    score tables bound it whatever [aqi] and [distanceMeters] are). *)
Theorem C3_green_index_bounds (distanceMeters aqi solarIndex : float) :
  (0 <=? aqi) = true ->
  (0 <=? distanceMeters) = true ->
  In solarIndex [30; 40; 50] ->
  (0 <=? calculateGreenIndex distanceMeters aqi solarIndex) = true
  /\ (calculateGreenIndex distanceMeters aqi solarIndex <=? 100) = true.
Proof.
  intros _ _ Hs.
  destruct (green_index_range distanceMeters aqi solarIndex Hs) as [Lo Hi].
  split.
  - apply (FloatOrder.leb_trans 0 13); [reflexivity|exact Lo].
  - apply (FloatOrder.leb_trans _ 85); [exact Hi|reflexivity].
Qed.

Lemma C3_witness :
  (0 <=? calculateGreenIndex 1200 90 40) = true
  /\ (calculateGreenIndex 1200 90 40 <=? 100) = true.
Proof.
  apply (C3_green_index_bounds 1200 90 40);
    [reflexivity | reflexivity | cbn; tauto].
Defined.

(** ** Selection *)

Lemma greener_cases a b : greener a b = a \/ greener a b = b.
Proof. unfold greener. destruct (gtb _ _); auto. Qed.

Lemma fold_greener_In xs : forall a, In (fold_left greener xs a) (a :: xs).
Proof.
  induction xs as [|b xs IH]; intros a; cbn [fold_left].
  - left. reflexivity.
  - destruct (IH (greener a b)) as [H|H].
    + destruct (greener_cases a b) as [E|E]; rewrite E in *.
      * left. exact H.
      * right. left. exact H.
    + right. right. exact H.
Qed.

Lemma selectBest_In l best : selectBest l = inr best -> In best l.
Proof.
  destruct l as [|a xs]; cbn; intros H; [discriminate H|].
  injection H as <-. apply fold_greener_In.
Qed.

(** The left fold keeps the first of the routes with the highest index. *)
Lemma fold_greener_split xs :
  forall a,
    scored a -> Forall scored xs ->
    exists before after,
      a :: xs = before ++ fold_left greener xs a :: after
      /\ Forall (fun r => (greenIndex r <? greenIndex (fold_left greener xs a)) = true)
                before
      /\ Forall (fun r => (greenIndex r <=? greenIndex (fold_left greener xs a)) = true)
                after.
Proof.
  induction xs as [|b xs IH] using rev_ind; intros a Ha Hxs.
  - exists [], []. cbn. auto.
  - apply Forall_app in Hxs. destruct Hxs as [Hxs Hb].
    apply Forall_inv in Hb.
    destruct (IH a Ha Hxs) as (before & after & E & Hlt & Hle).
    assert (scored (fold_left greener xs a)) as Hbest.
    { pose proof (fold_greener_In xs a) as I.
      assert (Forall scored (a :: xs)) as F by (constructor; assumption).
      rewrite Forall_forall in F. apply F, I. }
    rewrite fold_left_app. cbn [fold_left].
    set (best := fold_left greener xs a) in *.
    unfold greener, gtb.
    destruct (greenIndex best <? greenIndex b) eqn:C.
    + exists (before ++ best :: after), [].
      split; [|split; [|constructor]].
      * rewrite <- E. rewrite app_comm_cons. reflexivity.
      * apply Forall_app. split; [|constructor].
        -- eapply Forall_impl; [|exact Hlt]. cbn. intros r Hr.
           exact (FloatOrder.ltb_trans _ _ _ Hr C).
        -- exact C.
        -- eapply Forall_impl; [|exact Hle]. cbn. intros r Hr.
           exact (FloatOrder.leb_ltb_trans _ _ _ Hr C).
    + exists before, (after ++ [b]).
      split; [|split; [exact Hlt|]].
      * rewrite app_comm_cons, E, <- app_assoc. reflexivity.
      * apply Forall_app. split; [exact Hle|]. constructor; [|constructor].
        apply FloatOrder.not_ltb_leb; assumption.
Qed.

Lemma split_first_maximum before best after :
  Forall (fun r => (greenIndex r <? greenIndex best) = true) before ->
  Forall (fun r => (greenIndex r <=? greenIndex best) = true) after ->
  scored best ->
  first_maximum (before ++ best :: after) (List.length before) best.
Proof.
  intros Hlt Hle Hb. split.
  - rewrite nth_error_app2, Nat.sub_diag by lia. reflexivity.
  - intros j r Hj.
    destruct (Nat.lt_ge_cases j (List.length before)) as [L|G].
    + rewrite nth_error_app1 in Hj by exact L.
      apply nth_error_In in Hj. rewrite Forall_forall in Hlt.
      split; [apply FloatOrder.ltb_leb|intros _]; apply Hlt, Hj.
    + split; [|lia].
      rewrite nth_error_app2 in Hj by exact G.
      destruct (j - List.length before)%nat as [|n].
      * cbn in Hj. injection Hj as <-. apply FloatOrder.leb_refl, Hb.
      * cbn in Hj. apply nth_error_In in Hj. rewrite Forall_forall in Hle.
        apply Hle, Hj.
Qed.

(** The position and the route of a first maximum are determined by the
    list. *)
Lemma first_maximum_unique l k best k' best' :
  first_maximum l k best -> first_maximum l k' best' ->
  k' = k /\ best' = best.
Proof.
  intros [Hk H] [Hk' H'].
  assert (k' = k) as ->.
  { destruct (Nat.lt_trichotomy k' k) as [L|[E|L]]; [exfalso|exact E|exfalso].
    - destruct (H _ _ Hk') as [_ S]. specialize (S L).
      destruct (H' _ _ Hk) as [T _].
      rewrite (FloatOrder.ltb_not_leb _ _ S) in T. discriminate T.
    - destruct (H' _ _ Hk) as [_ S]. specialize (S L).
      destruct (H _ _ Hk') as [T _].
      rewrite (FloatOrder.ltb_not_leb _ _ S) in T. discriminate T. }
  split; [reflexivity|congruence].
Qed.

Lemma selectBest_first_maximum a xs :
  Forall scored (a :: xs) ->
  exists k, first_maximum (a :: xs) k (fold_left greener xs a).
Proof.
  intros Hl.
  pose proof (Forall_inv Hl) as Ha. pose proof (Forall_inv_tail Hl) as Hxs.
  destruct (fold_greener_split xs a Ha Hxs) as (before & after & E & Hlt & Hle).
  exists (List.length before).
  rewrite E at 1. apply split_first_maximum; trivial.
  rewrite Forall_forall in Hl. apply Hl, fold_greener_In.
Qed.

(** C2.  On a non-empty sequence of evaluated routes the selection succeeds
    and returns a route with the highest Green Index of the sequence; every
    route before the selected one has a strictly lower index, so of several
    routes with the highest index the earliest is selected.  The selection is
    determined by the sequence: any position and route with these two
    properties are the selected ones. *)
Theorem C2_selection_first_maximum (l : list EvaluatedRoute) :
  l <> [] ->
  Forall scored l ->
  exists best k,
    selectBest l = inr best
    /\ first_maximum l k best
    /\ forall k' best', first_maximum l k' best' -> k' = k /\ best' = best.
Proof.
  intros Hne Hl. destruct l as [|a xs]; [congruence|].
  destruct (selectBest_first_maximum a xs Hl) as [k FM].
  exists (fold_left greener xs a), k.
  split; [reflexivity|]. split; [exact FM|].
  intros k' best' FM'. exact (first_maximum_unique _ _ _ _ _ FM FM').
Qed.

Lemma C2_witness :
  exists best k,
    selectBest Scenario.exampleRoutes = inr best
    /\ first_maximum Scenario.exampleRoutes k best
    /\ forall k' best',
        first_maximum Scenario.exampleRoutes k' best' -> k' = k /\ best' = best.
Proof.
  apply (C2_selection_first_maximum Scenario.exampleRoutes).
  - discriminate.
  - repeat constructor.
Defined.

(** ** Awaited calls *)

Section EffFacts.
Context {World : Type}.
Implicit Types w : World.

Lemma bind_resolved {A B} (m : M World A) (k : A -> M World B) w a w' :
  m w = (inr a, w') -> bind m k w = k a w'.
Proof. unfold bind. intros ->. reflexivity. Qed.

Lemma bind_rejected {A B} (m : M World A) (k : A -> M World B) w e w' :
  m w = (inl e, w') -> bind m k w = (inl e, w').
Proof. unfold bind. intros ->. reflexivity. Qed.

Lemma bind_resolved_inv {A B} (m : M World A) (k : A -> M World B) w b w2 :
  bind m k w = (inr b, w2) ->
  exists a w1, m w = (inr a, w1) /\ k a w1 = (inr b, w2).
Proof.
  unfold bind. destruct (m w) as [[e|a] w1]; intros H; [discriminate H|].
  exists a, w1. auto.
Qed.

Lemma lift_resolved_inv {A} (r : string + A) w a w' :
  lift r w = (inr a, w') -> r = inr a /\ w' = w.
Proof. unfold lift. intros H. injection H as -> ->. auto. Qed.

End EffFacts.

(** ** Signals *)

Lemma solarOfResponse_index response :
  In (solarIndex (solarOfResponse response)) [30; 40; 50].
Proof.
  unfold solarOfResponse. cbn [solarIndex].
  destruct (_ <? 1500); [|destruct (_ <? 2000)]; cbn; tauto.
Qed.

(** The label follows the index, and is never the fallback's. *)
Lemma solarOfResponse_label response :
  let s := solarOfResponse response in
  (solarIndex s = 50 /\ shadeLabel s = "High Shade")
  \/ (solarIndex s = 40 /\ shadeLabel s = "Moderate Shade")
  \/ (solarIndex s = 30 /\ shadeLabel s = "Low Shade").
Proof.
  unfold solarOfResponse. cbn [solarIndex shadeLabel].
  destruct (_ <? 1500); [|destruct (_ <? 2000)]; vm_compute; tauto.
Qed.

(** The numeric mapping on a reading that [||] lets through. *)
Lemma solarOfResponse_reading response hours :
  reportedSunHours response = Some hours ->
  js_truthy hours = true ->
  solarOfResponse response
  = if hours <? 1500 then {| solarIndex := 50; shadeLabel := "High Shade" |}
    else if hours <? 2000
         then {| solarIndex := 40; shadeLabel := "Moderate Shade" |}
         else {| solarIndex := 30; shadeLabel := "Low Shade" |}.
Proof.
  intros E T. unfold solarOfResponse, js_or. rewrite E, T.
  destruct (hours <? 1500); [|destruct (hours <? 2000)]; reflexivity.
Qed.

Lemma solarOfResponse_absent response :
  reportedSunHours response = None ->
  solarOfResponse response = {| solarIndex := 30; shadeLabel := "Low Shade" |}.
Proof. intros E. unfold solarOfResponse, js_or. rewrite E. reflexivity. Qed.

(** The aqi on a first index that [||] lets through, and without one. *)
Lemma extractAqi_reading air v :
  firstAqi air = Some v -> js_truthy v = true -> extractAqi air = v.
Proof. intros E T. unfold extractAqi, js_or. rewrite E, T. reflexivity. Qed.

Lemma extractAqi_absent air : firstAqi air = None -> extractAqi air = 100.
Proof. intros E. unfold extractAqi, js_or. rewrite E. reflexivity. Qed.

(** ** The pipeline *)

Section PipelineFacts.
Context {World : Type} (env : Collaborators World).
Implicit Types w : World.

Lemma getSolarIndex_rejected la ln w msg w' :
  buildingInsights env la ln w = (inl msg, w') ->
  getSolarIndex env la ln w = (inr defaultSolar, w').
Proof. unfold getSolarIndex, try_catch, bind. intros ->. reflexivity. Qed.

Lemma getSolarIndex_resolved la ln w response w' :
  buildingInsights env la ln w = (inr response, w') ->
  getSolarIndex env la ln w = (inr (solarOfResponse response), w').
Proof. unfold getSolarIndex, try_catch, bind. intros ->. reflexivity. Qed.

(** [getSolarIndex] never rejects, and its index is 30, 40 or 50. *)
Lemma getSolarIndex_total la ln w :
  exists s w',
    getSolarIndex env la ln w = (inr s, w') /\ In (solarIndex s) [30; 40; 50].
Proof.
  destruct (buildingInsights env la ln w) as [[msg|response] w'] eqn:E.
  - exists defaultSolar, w'. split; [exact (getSolarIndex_rejected _ _ _ _ _ E)|].
    cbn. tauto.
  - exists (solarOfResponse response), w'.
    split; [exact (getSolarIndex_resolved _ _ _ _ _ E)|].
    apply solarOfResponse_index.
Qed.


Lemma getGeminiExplanation_total d w :
  exists text w', getGeminiExplanation env d w = (inr text, w').
Proof.
  unfold getGeminiExplanation, try_catch.
  destruct (generateContent env (prompt env d) w) as [[msg|text] w'];
    do 2 eexists; reflexivity.
Qed.

(** What a pushed record holds. *)
Lemma evaluateRoute_resolved_inv i route w e w' :
  evaluateRoute env i route w = (inr e, w') ->
  routeIndex e = i
  /\ In (solarIndex (solar e)) [30; 40; 50]
  /\ greenIndex e
     = calculateGreenIndex (distanceMeters route) (aqi e) (solarIndex (solar e)).
Proof.
  unfold evaluateRoute. intros H.
  apply bind_resolved_inv in H. destruct H as (midpoint & w1 & H1 & H).
  apply lift_resolved_inv in H1. destruct H1 as [H1 ->].
  apply bind_resolved_inv in H. destruct H as (signals & w2 & H2 & H).
  unfold ret in H. injection H as <- <-. cbn.
  split; [reflexivity|]. split; [|reflexivity].
  destruct midpoint as [p|].
  - apply bind_resolved_inv in H2. destruct H2 as (air & w3 & _ & H2).
    apply bind_resolved_inv in H2. destruct H2 as (s & w4 & H2 & H3).
    unfold ret in H3. injection H3 as <- <-. cbn.
    destruct (getSolarIndex_total (lat p) (lng p) w3) as (s' & w5 & E & I).
    rewrite H2 in E. injection E as <- <-. exact I.
  - unfold ret in H2. injection H2 as <- <-. cbn. tauto.
Qed.

Lemma evaluateRoute_scored i route w e w' :
  evaluateRoute env i route w = (inr e, w') -> scored e.
Proof.
  intros H. destruct (evaluateRoute_resolved_inv _ _ _ _ _ H) as (_ & I & G).
  unfold scored. rewrite G. apply green_index_number, I.
Qed.

Lemma evaluateRoute_resolves i route w :
  (exists midpoint, getRouteMidpoint env (encodedPathOf route) = inr midpoint) ->
  air_up env ->
  exists e w', evaluateRoute env i route w = (inr e, w').
Proof.
  intros [midpoint Hm] Hair. unfold evaluateRoute.
  rewrite (bind_resolved _ _ w midpoint w) by (unfold lift; rewrite Hm; reflexivity).
  destruct midpoint as [p|].
  - destruct (Hair (lat p) (lng p) w) as (air & w1 & Ha).
    destruct (getSolarIndex_total (lat p) (lng p) w1) as (s & w2 & Hs & _).
    eexists. exists w2.
    erewrite bind_resolved; [reflexivity|].
    erewrite bind_resolved; [|exact Ha].
    erewrite bind_resolved; [|exact Hs]. reflexivity.
  - eexists. exists w. reflexivity.
Qed.

(** The loop appends one record per route, in order, the record of
    [routes[j]] being built with index [i + j]. *)
Lemma evaluateRoutes_resolved_inv routes :
  forall i acc w out w',
    evaluateRoutes env i routes acc w = (inr out, w') ->
    exists new,
      out = acc ++ new
      /\ List.length new = List.length routes
      /\ forall j e, nth_error new j = Some e ->
           exists route w1 w2,
             nth_error routes j = Some route
             /\ evaluateRoute env (i + j) route w1 = (inr e, w2).
Proof.
  induction routes as [|route rest IH]; intros i acc w out w' H.
  - cbn in H. unfold ret in H. injection H as <- <-.
    exists []. rewrite app_nil_r. repeat split.
    intros [|j] e Hj; discriminate Hj.
  - cbn [evaluateRoutes] in H.
    apply bind_resolved_inv in H. destruct H as (e0 & w1 & H0 & H).
    destruct (IH _ _ _ _ _ H) as (new & -> & L & N).
    exists (e0 :: new). rewrite <- app_assoc. cbn.
    split; [reflexivity|]. split; [congruence|].
    intros [|j] e Hj; cbn in Hj.
    + injection Hj as <-. exists route, w, w1. rewrite Nat.add_0_r. auto.
    + destruct (N _ _ Hj) as (r & v1 & v2 & Hr & He).
      exists r, v1, v2. rewrite Nat.add_succ_r. auto.
Qed.

Lemma evaluateRoutes_resolves routes :
  paths_resolve env routes -> air_up env ->
  forall i acc w, exists out w', evaluateRoutes env i routes acc w = (inr out, w').
Proof.
  intros Hp Hair. induction routes as [|route rest IH]; intros i acc w.
  - exists acc, w. reflexivity.
  - destruct (evaluateRoute_resolves i route w) as (e & w1 & He);
      [apply Hp; left; reflexivity|exact Hair|].
    destruct (IH (fun r Hr => Hp r (or_intror Hr)) (S i) (acc ++ [e]) w1)
      as (out & w2 & Ho).
    exists out, w2. cbn [evaluateRoutes].
    erewrite bind_resolved; [exact Ho|exact He].
Qed.

(** The loop over [pre ++ post] is the loop over [pre] followed, when it
    resolves, by the loop over [post]. *)
Lemma evaluateRoutes_app pre post :
  forall i acc w,
    evaluateRoutes env i (pre ++ post) acc w
    = match evaluateRoutes env i pre acc w with
      | (inr out, w') => evaluateRoutes env (i + List.length pre) post out w'
      | (inl e, w') => (inl e, w')
      end.
Proof.
  induction pre as [|route rest IH]; intros i acc w.
  - cbn. rewrite Nat.add_0_r. reflexivity.
  - cbn [app evaluateRoutes List.length]. unfold bind.
    destruct (evaluateRoute env i route w) as [[e|e0] w1]; [reflexivity|].
    rewrite IH, Nat.add_succ_r. reflexivity.
Qed.

(** A successful answer comes from a resolved routing call, a completed
    loop, a selection among its records and an explanation. *)
Lemma greenRouteTry_resolved_inv origin destination w response w' :
  greenRouteTry env origin destination w = (inr response, w') ->
  exists rs w0 alts w1 best text,
    computeRoutes env origin destination w = (inr {| routes := Some rs |}, w0)
    /\ evaluateRoutes env 0 rs [] w0 = (inr alts, w1)
    /\ selectBest alts = inr best
    /\ getGeminiExplanation env (summaryOf best alts) w1 = (inr text, w')
    /\ response = Success "Green corridor selected" best alts text.
Proof.
  unfold greenRouteTry. intros H.
  apply bind_resolved_inv in H. destruct H as ([rs] & w0 & H0 & H).
  apply bind_resolved_inv in H. destruct H as (rs' & w0' & H1 & H).
  apply lift_resolved_inv in H1. destruct H1 as [H1 ->]. cbn in H1.
  destruct rs as [rs|]; [|discriminate H1]. injection H1 as <-.
  apply bind_resolved_inv in H. destruct H as (alts & w1 & H2 & H).
  apply bind_resolved_inv in H. destruct H as (best & w1' & H3 & H).
  apply lift_resolved_inv in H3. destruct H3 as [H3 ->].
  apply bind_resolved_inv in H. destruct H as (text & w2 & H4 & H).
  unfold ret in H. injection H as <- <-.
  exists rs, w0, alts, w1, best, text. auto.
Qed.

Lemma getGreenRoute_success_inv origin destination w message best alts text w' :
  getGreenRoute env origin destination w
  = (Success message best alts text, w') ->
  greenRouteTry env origin destination w
  = (inr (Success message best alts text), w').
Proof.
  unfold getGreenRoute.
  destruct (greenRouteTry env origin destination w) as [[msg|response] w1];
    intros H; [discriminate H|].
  injection H as -> ->. reflexivity.
Qed.

(** With routes to choose from, paths that resolve and the air-quality
    service up, the handler answers with a selection, whatever the solar and
    text-generation services do. *)
Lemma getGreenRoute_resolves origin destination w rs w0 :
  computeRoutes env origin destination w = (inr {| routes := Some rs |}, w0) ->
  rs <> [] -> paths_resolve env rs -> air_up env ->
  exists alts w1 best text w',
    evaluateRoutes env 0 rs [] w0 = (inr alts, w1)
    /\ selectBest alts = inr best
    /\ getGeminiExplanation env (summaryOf best alts) w1 = (inr text, w')
    /\ getGreenRoute env origin destination w
       = (Success "Green corridor selected" best alts text, w').
Proof.
  intros Hr Hne Hp Hair.
  destruct (evaluateRoutes_resolves rs Hp Hair 0 [] w0) as (alts & w1 & He).
  destruct (evaluateRoutes_resolved_inv _ _ _ _ _ _ He) as (new & E & L & _).
  cbn in E. subst new.
  destruct alts as [|a xs].
  { destruct rs; [congruence|discriminate L]. }
  set (best := fold_left greener xs a).
  destruct (getGeminiExplanation_total (summaryOf best (a :: xs)) w1)
    as (text & w' & Ht).
  exists (a :: xs), w1, best, text, w'.
  split; [exact He|]. split; [reflexivity|]. split; [exact Ht|].
  unfold getGreenRoute, greenRouteTry.
  erewrite bind_resolved; [|exact Hr].
  erewrite bind_resolved; [|reflexivity].
  erewrite bind_resolved; [|exact He].
  erewrite bind_resolved; [|reflexivity].
  erewrite bind_resolved; [|exact Ht].
  reflexivity.
Qed.

End PipelineFacts.

(** ** Geometry resolver *)

Section Geometry.
Context {World : Type} (env : Collaborators World).

Lemma getRouteMidpoint_decoded path la ln :
  path <> "" ->
  nth_error (decode env path) (Nat.div (List.length (decode env path)) 2)
  = Some (la, ln) ->
  getRouteMidpoint env (Some path) = inr (Some {| lat := la; lng := ln |}).
Proof.
  intros Hp Hn. unfold getRouteMidpoint.
  destruct (String.eqb_spec path "") as [E|_]; [contradiction|].
  rewrite Hn. reflexivity.
Qed.

Lemma middle_of_even {A} (left right : list A) (a b : A) :
  List.length left = List.length right ->
  nth_error (left ++ a :: b :: right)
            (Nat.div (List.length (left ++ a :: b :: right)) 2)
  = Some b.
Proof.
  intros L. rewrite length_app. cbn [List.length].
  replace (List.length left + S (S (List.length right)))%nat
    with ((S (List.length left)) * 2)%nat by lia.
  rewrite Nat.div_mul by discriminate.
  rewrite nth_error_app2 by lia.
  replace (S (List.length left) - List.length left)%nat with 1%nat by lia.
  reflexivity.
Qed.

Lemma middle_of_odd {A} (left right : list A) (c : A) :
  List.length left = List.length right ->
  nth_error (left ++ c :: right)
            (Nat.div (List.length (left ++ c :: right)) 2)
  = Some c.
Proof.
  intros L. rewrite length_app. cbn [List.length].
  replace (List.length left + S (List.length right))%nat
    with (1 + List.length left * 2)%nat by lia.
  rewrite Nat.div_add by discriminate. cbn [Nat.div Nat.divmod fst Nat.add].
  rewrite nth_error_app2 by lia. rewrite Nat.sub_diag. reflexivity.
Qed.

(** C6.  [polyline.decode] yields no point for the empty string and at
    least one for any other string.  Then the resolver returns no sample
    point for an absent path and for a path that decodes to an empty
    sequence; for any other path it returns the decoded point at index
    floor(count/2), which is the later of the two middle points for an even
    count (and the middle point for an odd one). *)
Theorem C6_midpoint_of_path :
  decoder_yields_points env ->
  getRouteMidpoint env None = inr None
  /\ (forall path,
        decode env path = [] -> getRouteMidpoint env (Some path) = inr None)
  /\ (forall path,
        decode env path <> [] ->
        exists la ln,
          nth_error (decode env path) (Nat.div (List.length (decode env path)) 2)
          = Some (la, ln)
          /\ getRouteMidpoint env (Some path)
             = inr (Some {| lat := la; lng := ln |}))
  /\ (forall path left a b right,
        decode env path = left ++ a :: b :: right ->
        List.length left = List.length right ->
        getRouteMidpoint env (Some path)
        = inr (Some {| lat := fst b; lng := snd b |}))
  /\ (forall path left c right,
        decode env path = left ++ c :: right ->
        List.length left = List.length right ->
        getRouteMidpoint env (Some path)
        = inr (Some {| lat := fst c; lng := snd c |})).
Proof.
  intros Hdec.
  assert (forall path, decode env path <> [] -> path <> "") as Hne.
  { intros path Hd E. apply Hd, Hdec, E. }
  split; [reflexivity|].
  split; [|split; [|split]].
  - intros path Hd. apply Hdec in Hd. subst path. reflexivity.
  - intros path Hd.
    destruct (nth_error (decode env path)
                (Nat.div (List.length (decode env path)) 2))
      as [[la ln]|] eqn:E.
    + exists la, ln. split; [reflexivity|].
      apply getRouteMidpoint_decoded; [apply Hne, Hd|exact E].
    + exfalso. apply nth_error_None in E.
      destruct (decode env path) as [|p ps]; [congruence|].
      pose proof (Nat.div_lt (List.length (p :: ps)) 2) as D.
      cbn [List.length] in *. lia.
  - intros path left a [la ln] right Hd L.
    apply getRouteMidpoint_decoded.
    + apply Hne. rewrite Hd. destruct left; discriminate.
    + rewrite Hd. apply middle_of_even, L.
  - intros path left [la ln] right Hd L.
    apply getRouteMidpoint_decoded.
    + apply Hne. rewrite Hd. destruct left; discriminate.
    + rewrite Hd. apply middle_of_odd, L.
Qed.

End Geometry.

Lemma sampleDecode_yields_points (c : Collaborators Scenario.World) :
  decode c = Scenario.sampleDecode -> decoder_yields_points c.
Proof.
  intros D path. rewrite D. unfold Scenario.sampleDecode.
  destruct (String.eqb_spec path "") as [E|N]; [tauto|].
  split; [|contradiction].
  destruct (String.eqb path "a"); [discriminate|].
  destruct (String.eqb path "b"); [discriminate|].
  destruct (String.eqb path "c"); discriminate.
Qed.

Lemma C6_witness :
  getRouteMidpoint Scenario.sample None = inr None
  /\ getRouteMidpoint Scenario.sample (Some "") = inr None
  /\ getRouteMidpoint Scenario.sample (Some "b")
     = inr (Some {| lat := 2.5; lng := 2.5 |})
  /\ getRouteMidpoint Scenario.sample (Some "c")
     = inr (Some {| lat := 3.5; lng := 3.5 |}).
Proof.
  destruct (C6_midpoint_of_path Scenario.sample
              (sampleDecode_yields_points Scenario.sample eq_refl))
    as (Hn & He0 & _ & He & Ho).
  split; [exact Hn|]. split; [|split].
  - apply (He0 ""). reflexivity.
  - apply (He "b" [] (2, 2) (2.5, 2.5) []); reflexivity.
  - apply (Ho "c" [(3, 3)] (3.5, 3.5) [(4, 4)]); reflexivity.
Defined.

(** ** Signal collector *)

(** C5.  The handler's [air.indexes?.[0]?.aqi || 100] at a first index whose
    value is 0: the reported value is dropped and 100 is scored in its place,
    although the service did return an index.  With a service reporting 0
    for every point, each evaluated route carries aqi 100. *)
Theorem C5_zero_index_is_replaced :
  firstAqi (Scenario.airReport 0) = Some 0
  /\ extractAqi (Scenario.airReport 0) = 100
  /\ match fst (getGreenRoute Scenario.zeroAqi "A" "B" []) with
     | Success _ _ alts _ => map aqi alts = [100; 100; 100]
     | Failure _ _ _ => False
     end.
Proof. vm_compute. repeat split. Qed.

(** C7.  [getSolarIndex] at a response whose [yearlySunlightHours] is
    present and 0: [||] replaces the reading by 2000, so the index is 30 and
    the label "Low Shade", where a reading below 1500 calls for 50 and
    "High Shade". *)
Theorem C7_zero_sunlight_hours_are_replaced :
  reportedSunHours (Scenario.sunReport (Some 0)) = Some 0
  /\ (0 <? 1500) = true
  /\ solarOfResponse (Scenario.sunReport (Some 0))
     = {| solarIndex := 30; shadeLabel := "Low Shade" |}.
Proof. vm_compute. repeat split. Qed.

(** ** Failures *)

Section Failures.
Context {World : Type} (env : Collaborators World).
Implicit Types w : World.

Lemma getGreenRoute_rejected origin destination w msg w' :
  greenRouteTry env origin destination w = (inl msg, w') ->
  getGreenRoute env origin destination w
  = (Failure 500 "Failed to calculate green corridor" msg, w').
Proof. unfold getGreenRoute. intros ->. reflexivity. Qed.

(** The full account of a resolved loop turn: the record, the signals and
    the calls they come from. *)
Lemma evaluateRoute_resolved_cases i route w e w' :
  evaluateRoute env i route w = (inr e, w') ->
  exists midpoint a s,
    getRouteMidpoint env (encodedPathOf route) = inr midpoint
    /\ e = {| routeIndex := i;
              ev_distanceMeters := distanceMeters route;
              ev_duration := duration route;
              aqi := a;
              greenIndex :=
                calculateGreenIndex (distanceMeters route) a (solarIndex s);
              solar := s;
              ev_polyline := polyline route |}
    /\ match midpoint with
       | Some p =>
           exists air w1,
             currentConditions env (lat p) (lng p) w = (inr air, w1)
             /\ a = extractAqi air
             /\ getSolarIndex env (lat p) (lng p) w1 = (inr s, w')
       | None => a = 100 /\ s = defaultSolar /\ w' = w
       end.
Proof.
  unfold evaluateRoute. intros H.
  apply bind_resolved_inv in H. destruct H as (midpoint & w1 & H1 & H).
  apply lift_resolved_inv in H1. destruct H1 as [H1 ->].
  apply bind_resolved_inv in H. destruct H as ([a s] & w2 & H2 & H).
  unfold ret in H. injection H as <- <-. cbn [fst snd].
  exists midpoint, a, s. split; [exact H1|]. split; [reflexivity|].
  destruct midpoint as [p|].
  - apply bind_resolved_inv in H2. destruct H2 as (air & w3 & Ha & H2).
    apply bind_resolved_inv in H2. destruct H2 as (s' & w4 & Hs & H2).
    unfold ret in H2. injection H2 as <- <- <-.
    exists air, w3. auto.
  - unfold ret in H2. injection H2 as <- <- <-. auto.
Qed.

(** C4.  Each of the three fatal causes makes the handler answer with the
    single 500 object that carries the cause's message, so with no selected
    route and no list of evaluated routes: (1) the routing call rejects;
    (2) the routing call resolves with an empty list, and the selection
    throws, or with no list at all, and reading its length throws; (3) the
    air-quality call of some route rejects, the routes before it having been
    evaluated.  In (3) the world is left as the failed call left it: nothing
    further is evaluated. *)
Theorem C4_fatal_failures_abort origin destination w :
  (forall msg w',
      computeRoutes env origin destination w = (inl msg, w') ->
      getGreenRoute env origin destination w
      = (Failure 500 "Failed to calculate green corridor" msg, w'))
  /\ (forall w',
        computeRoutes env origin destination w
        = (inr {| routes := Some [] |}, w') ->
        getGreenRoute env origin destination w
        = (Failure 500 "Failed to calculate green corridor"
                   reduce_empty_msg, w'))
  /\ (forall w',
        computeRoutes env origin destination w
        = (inr {| routes := None |}, w') ->
        getGreenRoute env origin destination w
        = (Failure 500 "Failed to calculate green corridor"
                   undefined_length_msg, w'))
  /\ (forall pre route post w0 done w1 p msg w2,
        computeRoutes env origin destination w
        = (inr {| routes := Some (pre ++ route :: post) |}, w0) ->
        evaluateRoutes env 0 pre [] w0 = (inr done, w1) ->
        getRouteMidpoint env (encodedPathOf route) = inr (Some p) ->
        currentConditions env (lat p) (lng p) w1 = (inl msg, w2) ->
        getGreenRoute env origin destination w
        = (Failure 500 "Failed to calculate green corridor" msg, w2)).
Proof.
  split; [|split; [|split]].
  - intros msg w' H. apply getGreenRoute_rejected.
    unfold greenRouteTry. apply bind_rejected, H.
  - intros w' H. apply getGreenRoute_rejected.
    unfold greenRouteTry.
    erewrite bind_resolved; [|exact H].
    reflexivity.
  - intros w' H. apply getGreenRoute_rejected.
    unfold greenRouteTry.
    erewrite bind_resolved; [|exact H].
    reflexivity.
  - intros pre route post w0 done w1 p msg w2 Hr Hpre Hp Ha.
    apply getGreenRoute_rejected. unfold greenRouteTry.
    erewrite bind_resolved; [|exact Hr].
    erewrite bind_resolved; [|reflexivity].
    apply bind_rejected.
    rewrite evaluateRoutes_app, Hpre. cbn [evaluateRoutes].
    apply bind_rejected. unfold evaluateRoute.
    erewrite bind_resolved; [|unfold lift; rewrite Hp; reflexivity].
    apply bind_rejected. apply bind_rejected. exact Ha.
Qed.

(** A loop turn whose solar call rejects, after the air-quality call
    resolved, still resolves: with the default solar signal. *)
Lemma evaluateRoute_solar_rejected i route w p air w1 msg w2 :
  getRouteMidpoint env (encodedPathOf route) = inr (Some p) ->
  currentConditions env (lat p) (lng p) w = (inr air, w1) ->
  buildingInsights env (lat p) (lng p) w1 = (inl msg, w2) ->
  evaluateRoute env i route w
  = (inr {| routeIndex := i;
            ev_distanceMeters := distanceMeters route;
            ev_duration := duration route;
            aqi := extractAqi air;
            greenIndex :=
              calculateGreenIndex (distanceMeters route) (extractAqi air) 30;
            solar := {| solarIndex := 30; shadeLabel := "Unknown" |};
            ev_polyline := polyline route |}, w2).
Proof.
  intros Hm Ha Hs. unfold evaluateRoute.
  erewrite bind_resolved; [|unfold lift; rewrite Hm; reflexivity].
  rewrite (bind_resolved _ _ w (extractAqi air, defaultSolar) w2);
    [reflexivity|].
  erewrite bind_resolved; [|exact Ha].
  erewrite bind_resolved; [|exact (getSolarIndex_rejected env _ _ _ _ _ Hs)].
  reflexivity.
Qed.

(** C8, as the code has it.  When the solar call rejects (network or
    provider error), [getSolarIndex] resolves with
    [{solarIndex: 30, shadeLabel: "Unknown"}] and the route is evaluated
    with it.  Whatever the solar service does, rejecting none, some or all
    of its calls, the handler answers with a selection as soon as there are
    routes to choose from, paths that resolve and the air-quality service is
    up; it has evaluated every route, and each route whose solar call was
    rejected carries [{30, "Unknown"}].  A resolved body without a usable
    [yearlySunlightHours] is no failure for the code: it yields
    [{solarIndex: 30, shadeLabel: "Low Shade"}]. *)
Theorem C8_rejected_solar_call_is_absorbed :
  (forall la ln w msg w',
      buildingInsights env la ln w = (inl msg, w') ->
      getSolarIndex env la ln w
      = (inr {| solarIndex := 30; shadeLabel := "Unknown" |}, w'))
  /\ (forall i route w p air w1 msg w2,
        getRouteMidpoint env (encodedPathOf route) = inr (Some p) ->
        currentConditions env (lat p) (lng p) w = (inr air, w1) ->
        buildingInsights env (lat p) (lng p) w1 = (inl msg, w2) ->
        evaluateRoute env i route w
        = (inr {| routeIndex := i;
                  ev_distanceMeters := distanceMeters route;
                  ev_duration := duration route;
                  aqi := extractAqi air;
                  greenIndex :=
                    calculateGreenIndex (distanceMeters route)
                                        (extractAqi air) 30;
                  solar := {| solarIndex := 30; shadeLabel := "Unknown" |};
                  ev_polyline := polyline route |}, w2))
  /\ (forall origin destination w rs w0,
        computeRoutes env origin destination w
        = (inr {| routes := Some rs |}, w0) ->
        rs <> [] -> paths_resolve env rs -> air_up env ->
        exists best alts text w',
          getGreenRoute env origin destination w
          = (Success "Green corridor selected" best alts text, w')
          /\ List.length alts = List.length rs
          /\ (forall j e,
                nth_error alts j = Some e ->
                exists route v1 v2,
                  nth_error rs j = Some route
                  /\ evaluateRoute env j route v1 = (inr e, v2)
                  /\ forall p air v3 msg v4,
                       getRouteMidpoint env (encodedPathOf route)
                       = inr (Some p) ->
                       currentConditions env (lat p) (lng p) v1
                       = (inr air, v3) ->
                       buildingInsights env (lat p) (lng p) v3
                       = (inl msg, v4) ->
                       solar e
                       = {| solarIndex := 30; shadeLabel := "Unknown" |})
          /\ ((forall la ln w1, exists msg w2,
                  buildingInsights env la ln w1 = (inl msg, w2)) ->
              Forall (fun e =>
                        solar e
                        = {| solarIndex := 30; shadeLabel := "Unknown" |})
                     alts))
  /\ (forall la ln w response w',
        buildingInsights env la ln w = (inr response, w') ->
        reportedSunHours response = None ->
        getSolarIndex env la ln w
        = (inr {| solarIndex := 30; shadeLabel := "Low Shade" |}, w')).
Proof.
  split; [exact (getSolarIndex_rejected env)|].
  split; [exact evaluateRoute_solar_rejected|].
  split.
  - intros origin destination w rs w0 Hr Hne Hp Hair.
    destruct (getGreenRoute_resolves env _ _ _ _ _ Hr Hne Hp Hair)
      as (alts & w1 & best & text & w' & He & _ & _ & Hg).
    exists best, alts, text, w'. split; [exact Hg|].
    destruct (evaluateRoutes_resolved_inv env _ _ _ _ _ _ He)
      as (new & E & L & N).
    cbn in E. subst new. split; [exact L|]. split.
    + intros j e Hj. destruct (N _ _ Hj) as (route & v1 & v2 & Hr' & Hev).
      cbn [Nat.add] in Hev. exists route, v1, v2. split; [exact Hr'|].
      split; [exact Hev|].
      intros p air v3 msg v4 Hm Ha Hs.
      rewrite (evaluateRoute_solar_rejected j route v1 p air v3 msg v4 Hm Ha Hs)
        in Hev.
      injection Hev as <- _. reflexivity.
    + intros Hdown. apply Forall_forall. intros e He'.
      apply In_nth_error in He'. destruct He' as [j Hj].
      destruct (N _ _ Hj) as (route & v1 & v2 & _ & Hev).
      destruct (evaluateRoute_resolved_cases _ _ _ _ _ Hev)
        as ([p|] & a & s & _ & -> & Hc); cbn [solar].
      * destruct Hc as (air & v3 & _ & _ & Hs).
        destruct (Hdown (lat p) (lng p) v3) as (msg & v4 & Hd).
        rewrite (getSolarIndex_rejected env _ _ _ _ _ Hd) in Hs.
        injection Hs as <- _. reflexivity.
      * destruct Hc as (_ & -> & _). reflexivity.
  - intros la ln w response w' Hr Hn.
    rewrite (getSolarIndex_resolved env _ _ _ _ _ Hr).
    rewrite (solarOfResponse_absent _ Hn). reflexivity.
Qed.


(** C10.  In every successful answer the selected route is one of the
    alternatives: it is the record that stands, in the list of evaluated
    routes, at the position its own [routeIndex] names. *)
Theorem C10_selected_is_an_alternative
    origin destination w message best alts text w' :
  getGreenRoute env origin destination w
  = (Success message best alts text, w') ->
  In best alts /\ nth_error alts (routeIndex best) = Some best.
Proof.
  intros H. apply getGreenRoute_success_inv in H.
  apply greenRouteTry_resolved_inv in H.
  destruct H as (rs & w0 & alts' & w1 & best' & text' & _ & He & Hs & _ & E).
  injection E as -> -> -> ->.
  pose proof (selectBest_In _ _ Hs) as I. split; [exact I|].
  destruct (evaluateRoutes_resolved_inv env _ _ _ _ _ _ He) as (new & E & _ & N).
  cbn in E. subst new.
  apply In_nth_error in I. destruct I as [j Hj].
  destruct (N _ _ Hj) as (route & v1 & v2 & _ & Hev).
  destruct (evaluateRoute_resolved_inv env _ _ _ _ _ Hev) as (Hi & _).
  cbn in Hi. rewrite Hi. exact Hj.
Qed.

(** Every successful answer lists records numbered by their position, with
    a Green Index between 0 and 100, and selects the first of those with the
    highest index. *)
Lemma success_answer_invariants
    origin destination w message best alts text w' :
  getGreenRoute env origin destination w
  = (Success message best alts text, w') ->
  (forall j e, nth_error alts j = Some e ->
     routeIndex e = j
     /\ (0 <=? greenIndex e) = true /\ (greenIndex e <=? 100) = true)
  /\ first_maximum alts (routeIndex best) best.
Proof.
  intros H. apply getGreenRoute_success_inv in H.
  apply greenRouteTry_resolved_inv in H.
  destruct H as (rs & w0 & alts' & w1 & best' & text' & _ & He & Hs & _ & E).
  injection E as -> <- <- <-.
  destruct (evaluateRoutes_resolved_inv env _ _ _ _ _ _ He) as (new & E & _ & N).
  cbn in E. subst new.
  assert (forall j e, nth_error alts j = Some e ->
            routeIndex e = j /\ In (solarIndex (solar e)) [30; 40; 50]
            /\ exists d, greenIndex e
                         = calculateGreenIndex d (aqi e) (solarIndex (solar e)))
    as Each.
  { intros j e Hj. destruct (N _ _ Hj) as (route & v1 & v2 & _ & Hev).
    destruct (evaluateRoute_resolved_inv env _ _ _ _ _ Hev) as (Hi & Hx & Hg).
    cbn in Hi. eauto. }
  split.
  - intros j e Hj. destruct (Each _ _ Hj) as (Hi & Hx & d & Hg).
    split; [exact Hi|]. rewrite Hg.
    destruct (green_index_range d (aqi e) _ Hx) as [Lo Hi'].
    split.
    + apply (FloatOrder.leb_trans 0 13); [reflexivity|exact Lo].
    + apply (FloatOrder.leb_trans _ 85); [exact Hi'|reflexivity].
  - destruct alts as [|a xs]; [discriminate Hs|].
    cbn in Hs. injection Hs as <-.
    assert (Forall scored (a :: xs)) as F.
    { apply Forall_forall. intros e Ie.
      apply In_nth_error in Ie. destruct Ie as [j Hj].
      destruct (Each _ _ Hj) as (_ & Hx & d & Hg).
      unfold scored. rewrite Hg. apply green_index_number, Hx. }
    destruct (selectBest_first_maximum a xs F) as [k FM].
    destruct FM as [Hk Hmax].
    destruct (Each _ _ Hk) as (-> & _). split; assumption.
Qed.

End Failures.

(** ** The theorems at the sample collaborators *)

Lemma C4_witness :
  getGreenRoute Scenario.routingDown "A" "B" []
  = (Failure 500 "Failed to calculate green corridor"
             "Request failed with status code 403", ["routes"])
  /\ getGreenRoute Scenario.noRoute "A" "B" []
     = (Failure 500 "Failed to calculate green corridor" reduce_empty_msg,
        ["routes"])
  /\ getGreenRoute Scenario.airDownAtSecond "A" "B" []
     = (Failure 500 "Failed to calculate green corridor" "Network Error",
        ["routes"; "air"; "solar"; "air"]).
Proof.
  split; [|split].
  - apply (proj1 (C4_fatal_failures_abort Scenario.routingDown "A" "B" [])).
    reflexivity.
  - apply (proj1 (proj2
             (C4_fatal_failures_abort Scenario.noRoute "A" "B" []))).
    reflexivity.
  - apply (proj2 (proj2 (proj2
             (C4_fatal_failures_abort Scenario.airDownAtSecond "A" "B" [])))
             [Scenario.routeA] Scenario.routeB [Scenario.routeC]
             ["routes"] [Scenario.exampleBest] ["routes"; "air"; "solar"]
             {| lat := 2.5; lng := 2.5 |}).
    + reflexivity.
    + vm_compute. reflexivity.
    + reflexivity.
    + reflexivity.
Defined.

Lemma sample_paths_resolve (c : Collaborators Scenario.World) :
  decode c = Scenario.sampleDecode ->
  paths_resolve c Scenario.threeRoutes.
Proof.
  intros D route [<-|[<-|[<-|[]]]]; eexists;
    unfold getRouteMidpoint; rewrite D; reflexivity.
Qed.

Lemma C8_witness :
  exists best alts text w',
    getGreenRoute Scenario.solarDownAtSecond "A" "B" []
    = (Success "Green corridor selected" best alts text, w')
    /\ List.length alts = List.length Scenario.threeRoutes
    /\ (forall j e,
          nth_error alts j = Some e ->
          exists route v1 v2,
            nth_error Scenario.threeRoutes j = Some route
            /\ evaluateRoute Scenario.solarDownAtSecond j route v1
               = (inr e, v2)
            /\ forall p air v3 msg v4,
                 getRouteMidpoint Scenario.solarDownAtSecond
                   (encodedPathOf route)
                 = inr (Some p) ->
                 currentConditions Scenario.solarDownAtSecond
                   (lat p) (lng p) v1
                 = (inr air, v3) ->
                 buildingInsights Scenario.solarDownAtSecond
                   (lat p) (lng p) v3
                 = (inl msg, v4) ->
                 solar e = {| solarIndex := 30; shadeLabel := "Unknown" |})
    /\ ((forall la ln w1, exists msg w2,
            buildingInsights Scenario.solarDownAtSecond la ln w1
            = (inl msg, w2)) ->
        Forall (fun e =>
                  solar e = {| solarIndex := 30; shadeLabel := "Unknown" |})
               alts).
Proof.
  destruct (C8_rejected_solar_call_is_absorbed Scenario.solarDownAtSecond)
    as (_ & _ & H & _).
  apply (H "A" "B" [] Scenario.threeRoutes ["routes"]).
  - reflexivity.
  - discriminate.
  - apply sample_paths_resolve. reflexivity.
  - intros la ln w. do 2 eexists. reflexivity.
Defined.

(** C8 as stated fails for a malformed payload: a solar call that resolves
    with a body lacking [solarPotential] is not answered with
    [{30, "Unknown"}] but with [{30, "Low Shade"}]. *)
Lemma C8_malformed_payload_is_low_shade :
  buildingInsights Scenario.solarMalformed 1 1 []
  = (inr {| data := Some {| solarPotential := None |} |}, ["solar"])
  /\ getSolarIndex Scenario.solarMalformed 1 1 []
     = (inr {| solarIndex := 30; shadeLabel := "Low Shade" |}, ["solar"])
  /\ getSolarIndex Scenario.solarMalformed 1 1 []
     <> (inr {| solarIndex := 30; shadeLabel := "Unknown" |}, ["solar"]).
Proof.
  split; [reflexivity|]. split; [reflexivity|].
  intros H. vm_compute in H. discriminate H.
Qed.

(** With the solar call failing for the second route only, the request
    succeeds and only that route carries the default signal. *)
Example solar_down_at_second_run :
  match fst (getGreenRoute Scenario.solarDownAtSecond "A" "B" []) with
  | Success _ _ alts _ =>
      map solar alts
      = [ {| solarIndex := 30; shadeLabel := "Low Shade" |};
          {| solarIndex := 30; shadeLabel := "Unknown" |};
          {| solarIndex := 50; shadeLabel := "High Shade" |} ]
  | Failure _ _ _ => False
  end.
Proof. vm_compute. reflexivity. Qed.


Lemma C10_witness :
  In Scenario.exampleBest Scenario.exampleRoutes
  /\ nth_error Scenario.exampleRoutes (routeIndex Scenario.exampleBest)
     = Some Scenario.exampleBest.
Proof.
  apply (C10_selected_is_an_alternative Scenario.sample "A" "B" []
           "Green corridor selected" Scenario.exampleBest
           Scenario.exampleRoutes "Cleaner air on this walk."
           ["routes"; "air"; "solar"; "air"; "solar"; "air"; "solar";
            "gemini"]).
  vm_compute. reflexivity.
Defined.

(** * Further properties of the code *)

(** ** Scoring engine: order *)

Lemma getAQIScore_antitone a1 a2 :
  (a1 <=? a2) = true -> (getAQIScore a2 <=? getAQIScore a1) = true.
Proof.
  intros H. unfold getAQIScore.
  repeat match goal with
         | |- context [if ?x <=? ?b then _ else _] => destruct (x <=? b) eqn:?
         end;
    try reflexivity;
    match goal with
    | H1 : (a2 <=? ?b) = true, H2 : (a1 <=? ?b) = false |- _ =>
        rewrite (FloatOrder.leb_trans _ _ _ H H1) in H2; discriminate H2
    end.
Qed.

Lemma getDistanceScore_antitone d1 d2 :
  (d1 <=? d2) = true -> (getDistanceScore d2 <=? getDistanceScore d1) = true.
Proof.
  intros H. unfold getDistanceScore.
  repeat match goal with
         | |- context [if ?x <=? ?b then _ else _] => destruct (x <=? b) eqn:?
         end;
    try reflexivity;
    match goal with
    | H1 : (d2 <=? ?b) = true, H2 : (d1 <=? ?b) = false |- _ =>
        rewrite (FloatOrder.leb_trans _ _ _ H H1) in H2; discriminate H2
    end.
Qed.

(** X1.  Both step functions never increase: a higher aqi never scores
    higher, nor does a longer distance. *)
Theorem X1_scores_never_increase :
  (forall a1 a2,
      (a1 <=? a2) = true -> (getAQIScore a2 <=? getAQIScore a1) = true)
  /\ (forall d1 d2,
        (d1 <=? d2) = true ->
        (getDistanceScore d2 <=? getDistanceScore d1) = true).
Proof. split; [exact getAQIScore_antitone|exact getDistanceScore_antitone]. Qed.

Lemma X1_witness :
  (getAQIScore 180 <=? getAQIScore 60) = true
  /\ (getDistanceScore 7000 <=? getDistanceScore 1500) = true.
Proof.
  split.
  - apply (proj1 X1_scores_never_increase 60 180). reflexivity.
  - apply (proj2 X1_scores_never_increase 1500 7000). reflexivity.
Defined.

(** The weighted sum is monotone on the values the pipeline feeds it. *)
Lemma weighted_sum_monotone a1 a2 d1 d2 s1 s2 :
  In a1 [100; 80; 60; 40; 20; 5] -> In a2 [100; 80; 60; 40; 20; 5] ->
  In d1 [100; 70; 40; 10] -> In d2 [100; 70; 40; 10] ->
  In s1 [30; 40; 50] -> In s2 [30; 40; 50] ->
  (a2 <=? a1) = true -> (d2 <=? d1) = true -> (s2 <=? s1) = true ->
  (a2 * 0.6 + s2 * 0.3 + d2 * 0.1 <=? a1 * 0.6 + s1 * 0.3 + d1 * 0.1) = true.
Proof.
  set (A := [100; 80; 60; 40; 20; 5]). set (D := [100; 70; 40; 10]).
  set (S := [30; 40; 50]).
  assert (forallb (fun a1 => forallb (fun a2 => forallb (fun d1 =>
          forallb (fun d2 => forallb (fun s1 => forallb (fun s2 =>
            implb ((a2 <=? a1) && (d2 <=? d1) && (s2 <=? s1))
                  (a2 * 0.6 + s2 * 0.3 + d2 * 0.1
                   <=? a1 * 0.6 + s1 * 0.3 + d1 * 0.1))
          S) S) D) D) A) A = true) as T by (vm_compute; reflexivity).
  intros Ha1 Ha2 Hd1 Hd2 Hs1 Hs2 La Ld Ls.
  rewrite forallb_forall in T. specialize (T _ Ha1).
  rewrite forallb_forall in T. specialize (T _ Ha2).
  rewrite forallb_forall in T. specialize (T _ Hd1).
  rewrite forallb_forall in T. specialize (T _ Hd2).
  rewrite forallb_forall in T. specialize (T _ Hs1).
  rewrite forallb_forall in T. specialize (T _ Hs2).
  rewrite La, Ld, Ls in T. exact T.
Qed.

(** X2.  With solar indexes among 30, 40 and 50, the Green Index is
    monotone: a route with no higher aqi, no longer distance and no lower
    solar index never gets a lower Green Index. *)
Theorem X2_green_index_monotone d1 d2 a1 a2 s1 s2 :
  (a1 <=? a2) = true -> (d1 <=? d2) = true ->
  In s1 [30; 40; 50] -> In s2 [30; 40; 50] -> (s2 <=? s1) = true ->
  (calculateGreenIndex d2 a2 s2 <=? calculateGreenIndex d1 a1 s1) = true.
Proof.
  intros La Ld Hs1 Hs2 Ls. unfold calculateGreenIndex.
  apply weighted_sum_monotone; trivial;
    try apply getAQIScore_values; try apply getDistanceScore_values.
  - apply getAQIScore_antitone, La.
  - apply getDistanceScore_antitone, Ld.
Qed.

Lemma X2_witness :
  (calculateGreenIndex 6000 250 30 <=? calculateGreenIndex 1500 90 40) = true.
Proof.
  apply X2_green_index_monotone;
    [reflexivity | reflexivity | cbn; tauto | cbn; tauto | reflexivity].
Defined.

(** X3.  An aqi or a distance that is not a number passes no threshold and
    gets the lowest score. *)
Theorem X3_scores_of_non_numbers :
  (forall aqi, is_nan aqi = true -> getAQIScore aqi = 5)
  /\ (forall d, is_nan d = true -> getDistanceScore d = 10)
  /\ (forall d aqi s,
        is_nan aqi = true -> is_nan d = true ->
        calculateGreenIndex d aqi s = 5 * 0.6 + s * 0.3 + 10 * 0.1).
Proof.
  assert (forall x b, is_nan x = true -> (x <=? b) = false) as N.
  { intros x b Hx. destruct (x <=? b) eqn:L; [|reflexivity].
    apply FloatOrder.leb_number_l in L. unfold number in L. congruence. }
  assert (forall aqi, is_nan aqi = true -> getAQIScore aqi = 5) as A.
  { intros aqi H. unfold getAQIScore. rewrite !(N aqi _ H). reflexivity. }
  assert (forall d, is_nan d = true -> getDistanceScore d = 10) as D.
  { intros d H. unfold getDistanceScore. rewrite !(N d _ H). reflexivity. }
  split; [exact A|]. split; [exact D|].
  intros d aqi s Ha Hd. unfold calculateGreenIndex.
  rewrite (A aqi Ha), (D d Hd). reflexivity.
Qed.

Lemma X3_witness :
  getAQIScore nan = 5 /\ getDistanceScore nan = 10
  /\ calculateGreenIndex nan nan 30 = 13.
Proof.
  destruct X3_scores_of_non_numbers as (A & D & G).
  split; [apply A; reflexivity|]. split; [apply D; reflexivity|].
  rewrite (G nan nan 30) by reflexivity. vm_compute. reflexivity.
Defined.

(** ** Signal collector: the shape of its results *)

(** X4.  On readings that [||] lets through, more yearly sunlight never
    gives a higher solar index. *)
Theorem X4_solar_index_never_increases r1 r2 h1 h2 :
  reportedSunHours r1 = Some h1 -> js_truthy h1 = true ->
  reportedSunHours r2 = Some h2 -> js_truthy h2 = true ->
  (h1 <=? h2) = true ->
  (solarIndex (solarOfResponse r2) <=? solarIndex (solarOfResponse r1)) = true.
Proof.
  intros E1 T1 E2 T2 L.
  rewrite (solarOfResponse_reading _ _ E1 T1), (solarOfResponse_reading _ _ E2 T2).
  destruct (h2 <? 1500) eqn:A2.
  - rewrite (FloatOrder.leb_ltb_trans _ _ _ L A2). reflexivity.
  - destruct (h2 <? 2000) eqn:B2.
    + pose proof (FloatOrder.leb_ltb_trans _ _ _ L B2) as B1. rewrite B1.
      destruct (h1 <? 1500); reflexivity.
    + destruct (h1 <? 1500); [reflexivity|].
      destruct (h1 <? 2000); reflexivity.
Qed.

Lemma X4_witness :
  (solarIndex (solarOfResponse (Scenario.sunReport (Some 2500)))
   <=? solarIndex (solarOfResponse (Scenario.sunReport (Some 1700)))) = true.
Proof.
  apply (X4_solar_index_never_increases _ _ 1700 2500); reflexivity.
Defined.

Lemma solarOfResponse_cases response :
  In (solarOfResponse response)
     [ {| solarIndex := 50; shadeLabel := "High Shade" |};
       {| solarIndex := 40; shadeLabel := "Moderate Shade" |};
       {| solarIndex := 30; shadeLabel := "Low Shade" |} ].
Proof.
  unfold solarOfResponse.
  destruct (_ <? 1500); [|destruct (_ <? 2000)]; cbn; tauto.
Qed.

(** X5.  [getSolarIndex] never rejects.  It makes the one solar call and
    resolves with one of four records: index 50 with "High Shade", 40 with
    "Moderate Shade", 30 with "Low Shade", or the default 30 with "Unknown";
    the label is "Unknown" only when the call was rejected. *)
Theorem X5_solar_signal_shapes {World : Type} (env : Collaborators World)
    (la ln : float) (w : World) :
  exists s w',
    getSolarIndex env la ln w = (inr s, w')
    /\ w' = snd (buildingInsights env la ln w)
    /\ In s [ {| solarIndex := 50; shadeLabel := "High Shade" |};
              {| solarIndex := 40; shadeLabel := "Moderate Shade" |};
              {| solarIndex := 30; shadeLabel := "Low Shade" |};
              defaultSolar ]
    /\ (shadeLabel s = "Unknown" ->
        exists msg, buildingInsights env la ln w = (inl msg, w')).
Proof.
  destruct (buildingInsights env la ln w) as [[msg|response] w'] eqn:E.
  - exists defaultSolar, w'.
    split; [exact (getSolarIndex_rejected _ _ _ _ _ _ E)|].
    split; [reflexivity|]. split; [cbn; tauto|]. intros _. exists msg.
    reflexivity.
  - exists (solarOfResponse response), w'.
    split; [exact (getSolarIndex_resolved _ _ _ _ _ _ E)|].
    split; [reflexivity|].
    pose proof (solarOfResponse_cases response) as C. split.
    + cbn [In] in *. tauto.
    + intros U. exfalso. cbn [In] in C.
      destruct C as [C|[C|[C|[]]]]; rewrite <- C in U; discriminate U.
Qed.

Lemma js_truthy_number x : js_truthy x = true -> number x /\ (x =? 0) = false.
Proof.
  unfold js_truthy, number, PrimFloat.is_zero. intros H.
  apply negb_true_iff, orb_false_iff in H. destruct H as [Z N].
  split; [exact N|exact Z].
Qed.

Lemma extractAqi_truthy air : js_truthy (extractAqi air) = true.
Proof.
  unfold extractAqi, js_or. destruct (firstAqi air) as [v|]; [|reflexivity].
  destruct (js_truthy v) eqn:T; [exact T|reflexivity].
Qed.

(** X6.  The aqi recorded for a route is always a number other than 0:
    [||] keeps a reported first index only when it is one, and puts 100 in
    its place otherwise.  It is 100 or the first index the service
    reported. *)
Theorem X6_recorded_aqi {World : Type} (env : Collaborators World)
    i route (w : World) e w' :
  evaluateRoute env i route w = (inr e, w') ->
  number (aqi e) /\ (aqi e =? 0) = false
  /\ (aqi e = 100
      \/ exists p air w1,
           getRouteMidpoint env (encodedPathOf route) = inr (Some p)
           /\ currentConditions env (lat p) (lng p) w = (inr air, w1)
           /\ firstAqi air = Some (aqi e)).
Proof.
  intros H.
  destruct (evaluateRoute_resolved_cases env _ _ _ _ _ H)
    as (midpoint & a & s & Hm & -> & Hc).
  cbn [aqi]. destruct midpoint as [p|].
  - destruct Hc as (air & w1 & Ha & -> & _).
    destruct (js_truthy_number _ (extractAqi_truthy air)) as [N Z].
    split; [exact N|]. split; [exact Z|].
    unfold extractAqi, js_or.
    destruct (firstAqi air) as [v|] eqn:F; [|left; reflexivity].
    destruct (js_truthy v); [|left; reflexivity].
    right. exists p, air, w1. auto.
  - destruct Hc as (-> & _). repeat split; try reflexivity. left. reflexivity.
Qed.

Lemma X6_witness :
  number (aqi Scenario.exampleBest)
  /\ (aqi Scenario.exampleBest =? 0) = false
  /\ (aqi Scenario.exampleBest = 100
      \/ exists p air w1,
           getRouteMidpoint Scenario.sample (encodedPathOf Scenario.routeA)
           = inr (Some p)
           /\ currentConditions Scenario.sample (lat p) (lng p) ["routes"]
              = (inr air, w1)
           /\ firstAqi air = Some (aqi Scenario.exampleBest)).
Proof.
  apply (X6_recorded_aqi Scenario.sample 0 Scenario.routeA ["routes"]
           Scenario.exampleBest ["routes"; "air"; "solar"]).
  vm_compute. reflexivity.
Defined.

(** X7.  A route without a polyline, without an encoded path or with an
    empty one is evaluated without calling any service: the world is left
    untouched, whatever the collaborators are, and the record carries aqi
    100, the default solar signal, and a Green Index of 67, 64, 61 or 58
    according to the distance alone. *)
Theorem X7_route_without_path {World : Type} (env : Collaborators World)
    i route (w : World) :
  encodedPathOf route = None \/ encodedPathOf route = Some "" ->
  evaluateRoute env i route w
  = (inr {| routeIndex := i;
            ev_distanceMeters := distanceMeters route;
            ev_duration := duration route;
            aqi := 100;
            greenIndex := calculateGreenIndex (distanceMeters route) 100 30;
            solar := defaultSolar;
            ev_polyline := polyline route |}, w)
  /\ In (calculateGreenIndex (distanceMeters route) 100 30) [67; 64; 61; 58].
Proof.
  intros H. split.
  - unfold evaluateRoute, bind, lift.
    destruct H as [-> | ->]; reflexivity.
  - unfold calculateGreenIndex.
    pose proof (getDistanceScore_values (distanceMeters route)) as D.
    cbn [In] in D.
    destruct D as [D|[D|[D|[D|[]]]]]; rewrite <- D; vm_compute; tauto.
Qed.

Lemma X7_witness :
  evaluateRoute Scenario.sample 4
    {| distanceMeters := 3000; duration := "40 min"; polyline := None |} []
  = (inr {| routeIndex := 4;
            ev_distanceMeters := 3000;
            ev_duration := "40 min";
            aqi := 100;
            greenIndex := calculateGreenIndex 3000 100 30;
            solar := defaultSolar;
            ev_polyline := None |}, [])
  /\ In (calculateGreenIndex 3000 100 30) [67; 64; 61; 58].
Proof.
  apply (X7_route_without_path Scenario.sample 4
           {| distanceMeters := 3000; duration := "40 min"; polyline := None |}
           []).
  left. reflexivity.
Defined.

(** ** The handler's answers *)

Section Answers.
Context {World : Type} (env : Collaborators World).
Implicit Types w : World.

(** Column by column, the records of the loop are those of the routes. *)
Lemma evaluateRoutes_columns routes :
  forall i acc w out w',
    evaluateRoutes env i routes acc w = (inr out, w') ->
    exists new,
      out = acc ++ new
      /\ map routeIndex new = seq i (List.length routes)
      /\ map ev_distanceMeters new = map distanceMeters routes
      /\ map ev_duration new = map duration routes
      /\ map ev_polyline new = map polyline routes
      /\ Forall (fun e =>
                   greenIndex e
                   = calculateGreenIndex (ev_distanceMeters e) (aqi e)
                                         (solarIndex (solar e))
                   /\ (13 <=? greenIndex e) = true
                   /\ (greenIndex e <=? 85) = true) new.
Proof.
  induction routes as [|route rest IH]; intros i acc w out w' H.
  - cbn in H. unfold ret in H. injection H as <- <-.
    exists []. rewrite app_nil_r. cbn. repeat split. constructor.
  - cbn [evaluateRoutes] in H.
    apply bind_resolved_inv in H. destruct H as (e0 & w1 & H0 & H).
    destruct (IH _ _ _ _ _ H) as (new & -> & Hi & Hd & Hu & Hp & Hg).
    destruct (evaluateRoute_resolved_inv env _ _ _ _ _ H0) as (_ & Hs & _).
    destruct (evaluateRoute_resolved_cases env _ _ _ _ _ H0)
      as (midpoint & a & s & _ & E & _).
    exists (e0 :: new). rewrite <- app_assoc. cbn.
    split; [reflexivity|].
    rewrite Hi, Hd, Hu, Hp. subst e0. cbn in *.
    repeat split. constructor; [|exact Hg]. cbn.
    split; [reflexivity|]. apply green_index_range, Hs.
Qed.

(** X8.  A successful answer carries the fixed message and one record per
    route the routing service returned, in the same order: the records are
    numbered 0, 1, 2, ... and repeat each route's distance, duration and
    polyline; each Green Index is [calculateGreenIndex] of the record's own
    distance, aqi and solar index, a value between 13 and 85. *)
Theorem X8_alternatives_mirror_routes
    origin destination w message best alts text w' :
  getGreenRoute env origin destination w
  = (Success message best alts text, w') ->
  message = "Green corridor selected"
  /\ exists rs w0,
      computeRoutes env origin destination w
      = (inr {| routes := Some rs |}, w0)
      /\ rs <> []
      /\ map routeIndex alts = seq 0 (List.length rs)
      /\ map ev_distanceMeters alts = map distanceMeters rs
      /\ map ev_duration alts = map duration rs
      /\ map ev_polyline alts = map polyline rs
      /\ Forall (fun e =>
                   greenIndex e
                   = calculateGreenIndex (ev_distanceMeters e) (aqi e)
                                         (solarIndex (solar e))
                   /\ (13 <=? greenIndex e) = true
                   /\ (greenIndex e <=? 85) = true) alts.
Proof.
  intros H. apply getGreenRoute_success_inv in H.
  apply greenRouteTry_resolved_inv in H.
  destruct H as (rs & w0 & alts' & w1 & best' & text' & Hr & He & Hs & _ & E).
  injection E as -> <- <- <-. split; [reflexivity|].
  exists rs, w0. split; [exact Hr|].
  destruct (evaluateRoutes_columns _ _ _ _ _ _ He)
    as (new & E & Hi & Hd & Hu & Hp & Hg).
  cbn in E. subst new. split; [|auto].
  intros ->. cbn in Hi. destruct alts; [discriminate Hs|discriminate Hi].
Qed.

(** X9.  In a successful answer the selected route is the first maximum of
    the alternatives: no alternative has a higher Green Index, and an
    alternative with the same Green Index never has a smaller
    [routeIndex]. *)
Theorem X9_answer_selects_first_maximum
    origin destination w message best alts text w' :
  getGreenRoute env origin destination w
  = (Success message best alts text, w') ->
  first_maximum alts (routeIndex best) best
  /\ forall e, In e alts ->
       (greenIndex e <=? greenIndex best) = true
       /\ (greenIndex e = greenIndex best ->
           (routeIndex best <= routeIndex e)%nat).
Proof.
  intros H.
  destruct (success_answer_invariants env _ _ _ _ _ _ _ _ H) as [Each FM].
  split; [exact FM|]. intros e Ie.
  apply In_nth_error in Ie. destruct Ie as [j Hj].
  destruct (Each _ _ Hj) as (Hi & _). destruct FM as [_ Hmax].
  destruct (Hmax _ _ Hj) as [Le Lt]. split; [exact Le|].
  intros E. rewrite Hi.
  destruct (Nat.le_gt_cases (routeIndex best) j) as [L|G]; [exact L|].
  specialize (Lt G). rewrite E, FloatOrder.ltb_irrefl in Lt. discriminate Lt.
Qed.

(** X13.  The explanation of a successful answer is the text the service
    generated for the prompt built from the selected route, or else, that
    call having been rejected, the fallback sentence: nothing else. *)
Theorem X13_explanation_provenance
    origin destination w message best alts text w' :
  getGreenRoute env origin destination w
  = (Success message best alts text, w') ->
  exists w1,
    generateContent env (prompt env (summaryOf best alts)) w1 = (inr text, w')
    \/ (text = fallbackExplanation
        /\ exists msg,
             generateContent env (prompt env (summaryOf best alts)) w1
             = (inl msg, w')).
Proof.
  intros H. apply getGreenRoute_success_inv in H.
  apply greenRouteTry_resolved_inv in H.
  destruct H as (rs & w0 & alts' & w1 & best' & text' & _ & _ & _ & Ht & E).
  injection E as -> <- <- <-. exists w1.
  unfold getGeminiExplanation, try_catch in Ht.
  destruct (generateContent env (prompt env (summaryOf best alts)) w1)
    as [[msg|t] w2].
  - unfold ret in Ht. injection Ht as <- <-. right. eauto.
  - injection Ht as <- <-. left. reflexivity.
Qed.

End Answers.

Lemma X8_witness :
  "Green corridor selected" = "Green corridor selected"
  /\ exists rs w0,
      computeRoutes Scenario.sample "A" "B" []
      = (inr {| routes := Some rs |}, w0)
      /\ rs <> []
      /\ map routeIndex Scenario.exampleRoutes = seq 0 (List.length rs)
      /\ map ev_distanceMeters Scenario.exampleRoutes = map distanceMeters rs
      /\ map ev_duration Scenario.exampleRoutes = map duration rs
      /\ map ev_polyline Scenario.exampleRoutes = map polyline rs
      /\ Forall (fun e =>
                   greenIndex e
                   = calculateGreenIndex (ev_distanceMeters e) (aqi e)
                                         (solarIndex (solar e))
                   /\ (13 <=? greenIndex e) = true
                   /\ (greenIndex e <=? 85) = true) Scenario.exampleRoutes.
Proof.
  apply (X8_alternatives_mirror_routes Scenario.sample "A" "B" []
           "Green corridor selected" Scenario.exampleBest
           Scenario.exampleRoutes "Cleaner air on this walk."
           ["routes"; "air"; "solar"; "air"; "solar"; "air"; "solar";
            "gemini"]).
  vm_compute. reflexivity.
Defined.

Lemma X9_witness :
  first_maximum Scenario.exampleRoutes (routeIndex Scenario.exampleBest)
                Scenario.exampleBest
  /\ forall e, In e Scenario.exampleRoutes ->
       (greenIndex e <=? greenIndex Scenario.exampleBest) = true
       /\ (greenIndex e = greenIndex Scenario.exampleBest ->
           (routeIndex Scenario.exampleBest <= routeIndex e)%nat).
Proof.
  apply (X9_answer_selects_first_maximum Scenario.sample "A" "B" []
           "Green corridor selected" Scenario.exampleBest
           Scenario.exampleRoutes "Cleaner air on this walk."
           ["routes"; "air"; "solar"; "air"; "solar"; "air"; "solar";
            "gemini"]).
  vm_compute. reflexivity.
Defined.

Lemma X13_witness :
  exists w1,
    generateContent Scenario.geminiDown
      (prompt Scenario.geminiDown
         (summaryOf Scenario.exampleBest Scenario.exampleRoutes)) w1
    = (inr fallbackExplanation,
       ["routes"; "air"; "solar"; "air"; "solar"; "air"; "solar"; "gemini"])
    \/ (fallbackExplanation = fallbackExplanation
        /\ exists msg,
             generateContent Scenario.geminiDown
               (prompt Scenario.geminiDown
                  (summaryOf Scenario.exampleBest Scenario.exampleRoutes)) w1
             = (inl msg,
                ["routes"; "air"; "solar"; "air"; "solar"; "air"; "solar";
                 "gemini"])).
Proof.
  apply (X13_explanation_provenance Scenario.geminiDown "A" "B" []
           "Green corridor selected" Scenario.exampleBest
           Scenario.exampleRoutes fallbackExplanation
           ["routes"; "air"; "solar"; "air"; "solar"; "air"; "solar";
            "gemini"]).
  vm_compute. reflexivity.
Defined.

(** ** The causes of a failure *)

Section FailureCauses.
Context {World : Type} (env : Collaborators World).
Implicit Types w : World.

Lemma bind_rejected_inv {A B} (m : M World A) (k : A -> M World B) w e w2 :
  bind m k w = (inl e, w2) ->
  m w = (inl e, w2)
  \/ exists a w1, m w = (inr a, w1) /\ k a w1 = (inl e, w2).
Proof.
  unfold bind. destruct (m w) as [[e0|a] w1]; intros H.
  - left. injection H as -> ->. reflexivity.
  - right. exists a, w1. auto.
Qed.

(** A loop turn rejects only by the path resolution or by the air-quality
    call. *)
Lemma evaluateRoute_rejected_inv i route w msg w' :
  evaluateRoute env i route w = (inl msg, w') ->
  (getRouteMidpoint env (encodedPathOf route) = inl msg /\ w' = w)
  \/ exists p,
       getRouteMidpoint env (encodedPathOf route) = inr (Some p)
       /\ currentConditions env (lat p) (lng p) w = (inl msg, w').
Proof.
  unfold evaluateRoute. intros H.
  apply bind_rejected_inv in H. destruct H as [H|(midpoint & w1 & Hm & H)].
  - unfold lift in H. injection H as H <-. left. auto.
  - unfold lift in Hm. injection Hm as Hm <-.
    apply bind_rejected_inv in H. destruct H as [H|(signals & w2 & _ & H)];
      [|discriminate H].
    destruct midpoint as [p|]; [|discriminate H].
    right. exists p. split; [exact Hm|].
    apply bind_rejected_inv in H. destruct H as [H|(air & w2 & _ & H)];
      [exact H|].
    exfalso.
    apply bind_rejected_inv in H. destruct H as [H|(s & w3 & _ & H)];
      [|discriminate H].
    destruct (getSolarIndex_total env (lat p) (lng p) w2) as (s & w3 & E & _).
    rewrite E in H. discriminate H.
Qed.

(** The loop rejects at the first turn that does, the turns before it
    having resolved. *)
Lemma evaluateRoutes_rejected_inv routes :
  forall i acc w msg w',
    evaluateRoutes env i routes acc w = (inl msg, w') ->
    exists pre route post done w1,
      routes = pre ++ route :: post
      /\ evaluateRoutes env i pre acc w = (inr done, w1)
      /\ evaluateRoute env (i + List.length pre) route w1 = (inl msg, w').
Proof.
  induction routes as [|route rest IH]; intros i acc w msg w' H.
  - discriminate H.
  - cbn [evaluateRoutes] in H.
    apply bind_rejected_inv in H. destruct H as [H|(e0 & w0 & H0 & H)].
    + exists [], route, rest, acc, w. cbn. rewrite Nat.add_0_r. auto.
    + destruct (IH _ _ _ _ _ H) as (pre & r & post & done & w1 & -> & Hp & Hr).
      exists (route :: pre), r, post, done, w1. cbn [app List.length].
      split; [reflexivity|]. split.
      * cbn [evaluateRoutes]. erewrite bind_resolved; [exact Hp|exact H0].
      * rewrite Nat.add_succ_r. exact Hr.
Qed.

(** With a decoder that yields a point for every non-empty string, the
    path resolution never throws. *)
Lemma getRouteMidpoint_never_throws path :
  decoder_yields_points env ->
  exists midpoint, getRouteMidpoint env path = inr midpoint.
Proof.
  intros Hdec. unfold getRouteMidpoint.
  destruct path as [path|]; [|eauto].
  destruct (String.eqb_spec path "") as [E|N]; [eauto|].
  destruct (nth_error (decode env path)
              (Nat.div (List.length (decode env path)) 2))
    as [[la ln]|] eqn:E; [eauto|].
  exfalso. apply nth_error_None in E.
  destruct (decode env path) as [|q qs] eqn:D.
  - apply N, Hdec, D.
  - pose proof (Nat.div_lt (List.length (q :: qs)) 2) as L.
    cbn [List.length] in *. lia.
Qed.

(** X10.  Scope: the routing and air-quality bodies have the shape the
    records above give them (an object whose [routes], when present, is an
    array of route objects; an object for the air-quality body), and the
    decoder yields a point for every non-empty string.  Then a failure
    answer has status 500 and the fixed error text, and its details are the
    message of one of four causes: the routing call was rejected; it
    resolved without a list of routes; it resolved with an empty list; or
    the air-quality call of some route was rejected, the routes before that
    one having been evaluated.  The solar and the text-generation services
    never cause a failure. *)
Theorem X10_failure_causes origin destination w status error details w' :
  decoder_yields_points env ->
  getGreenRoute env origin destination w
  = (Failure status error details, w') ->
  status = 500%nat
  /\ error = "Failed to calculate green corridor"
  /\ (computeRoutes env origin destination w = (inl details, w')
      \/ (computeRoutes env origin destination w
          = (inr {| routes := None |}, w')
          /\ details = undefined_length_msg)
      \/ (computeRoutes env origin destination w
          = (inr {| routes := Some [] |}, w')
          /\ details = reduce_empty_msg)
      \/ exists pre route post w0 done w1 p,
           computeRoutes env origin destination w
           = (inr {| routes := Some (pre ++ route :: post) |}, w0)
           /\ evaluateRoutes env 0 pre [] w0 = (inr done, w1)
           /\ getRouteMidpoint env (encodedPathOf route) = inr (Some p)
           /\ currentConditions env (lat p) (lng p) w1 = (inl details, w')).
Proof.
  intros Hdec. unfold getGreenRoute. intros H.
  destruct (greenRouteTry env origin destination w) as [[msg|response] w2] eqn:T.
  2:{ apply greenRouteTry_resolved_inv in T.
      destruct T as (? & ? & ? & ? & ? & ? & _ & _ & _ & _ & ->).
      discriminate H. }
  injection H as <- <- <- <-. split; [reflexivity|]. split; [reflexivity|].
  unfold greenRouteTry in T.
  apply bind_rejected_inv in T. destruct T as [T|([rs] & w0 & Hr & T)].
  { left. exact T. }
  apply bind_rejected_inv in T. destruct T as [T|(rs' & w0' & Hl & T)].
  { unfold lift in T. cbn in T. destruct rs as [rs|]; [discriminate T|].
    injection T as <- <-. right. left. auto. }
  unfold lift in Hl. cbn in Hl. destruct rs as [rs|]; [|discriminate Hl].
  injection Hl as <- <-.
  apply bind_rejected_inv in T. destruct T as [T|(alts & w1 & He & T)].
  { right. right. right.
    destruct (evaluateRoutes_rejected_inv _ _ _ _ _ _ T)
      as (pre & route & post & done & w1 & -> & Hp & Hx).
    destruct (evaluateRoute_rejected_inv _ _ _ _ _ Hx) as [[Hm _]|(p & Hm & Ha)].
    - destruct (getRouteMidpoint_never_throws (encodedPathOf route) Hdec)
        as [m Hm'].
      rewrite Hm' in Hm. discriminate Hm.
    - exists pre, route, post, w0, done, w1, p. auto. }
  apply bind_rejected_inv in T. destruct T as [T|(best & w1' & _ & T)].
  { unfold lift in T. injection T as T <-.
    destruct alts as [|a xs]; [|discriminate T]. cbn in T. injection T as <-.
    destruct (evaluateRoutes_resolved_inv env _ _ _ _ _ _ He) as (new & E & L & _).
    cbn in E. subst new. destruct rs as [|r rs]; [|discriminate L].
    cbn in He. unfold ret in He. injection He as <-.
    right. right. left. auto. }
  exfalso.
  apply bind_rejected_inv in T. destruct T as [T|(text & w3 & _ & T)];
    [|discriminate T].
  destruct (getGeminiExplanation_total env (summaryOf best alts) w1')
    as (text & w3 & E).
  rewrite E in T. discriminate T.
Qed.

End FailureCauses.

Lemma X10_witness :
  500%nat = 500%nat
  /\ "Failed to calculate green corridor"
     = "Failed to calculate green corridor"
  /\ (computeRoutes Scenario.airDownAtSecond "A" "B" []
      = (inl "Network Error", ["routes"; "air"; "solar"; "air"])
      \/ (computeRoutes Scenario.airDownAtSecond "A" "B" []
          = (inr {| routes := None |}, ["routes"; "air"; "solar"; "air"])
          /\ "Network Error" = undefined_length_msg)
      \/ (computeRoutes Scenario.airDownAtSecond "A" "B" []
          = (inr {| routes := Some [] |}, ["routes"; "air"; "solar"; "air"])
          /\ "Network Error" = reduce_empty_msg)
      \/ exists pre route post w0 done w1 p,
           computeRoutes Scenario.airDownAtSecond "A" "B" []
           = (inr {| routes := Some (pre ++ route :: post) |}, w0)
           /\ evaluateRoutes Scenario.airDownAtSecond 0 pre [] w0
              = (inr done, w1)
           /\ getRouteMidpoint Scenario.airDownAtSecond (encodedPathOf route)
              = inr (Some p)
           /\ currentConditions Scenario.airDownAtSecond (lat p) (lng p) w1
              = (inl "Network Error", ["routes"; "air"; "solar"; "air"])).
Proof.
  apply (X10_failure_causes Scenario.airDownAtSecond "A" "B" []).
  - apply sampleDecode_yields_points. reflexivity.
  - vm_compute. reflexivity.
Defined.

(** ** Selection reads the Green Index only *)

Lemma fold_greener_same_position xs1 :
  forall xs2 p1 p2 a1 a2 n,
    map greenIndex xs1 = map greenIndex xs2 ->
    greenIndex a1 = greenIndex a2 ->
    List.length p1 = List.length p2 ->
    nth_error p1 n = Some a1 -> nth_error p2 n = Some a2 ->
    exists k,
      nth_error (p1 ++ xs1) k = Some (fold_left greener xs1 a1)
      /\ nth_error (p2 ++ xs2) k = Some (fold_left greener xs2 a2).
Proof.
  induction xs1 as [|b1 r1 IH]; intros [|b2 r2] p1 p2 a1 a2 n Hm Ha Hl H1 H2;
    try discriminate Hm.
  - exists n. rewrite !app_nil_r. auto.
  - cbn in Hm. injection Hm as Hb Hm. cbn [fold_left].
    replace (p1 ++ b1 :: r1) with ((p1 ++ [b1]) ++ r1)
      by (rewrite <- app_assoc; reflexivity).
    replace (p2 ++ b2 :: r2) with ((p2 ++ [b2]) ++ r2)
      by (rewrite <- app_assoc; reflexivity).
    assert (List.length (p1 ++ [b1]) = List.length (p2 ++ [b2])) as Hl'
      by (rewrite !length_app; cbn; lia).
    unfold greener at 2 4. rewrite Ha, Hb.
    destruct (gtb (greenIndex b2) (greenIndex a2)).
    + apply (IH r2 _ _ b1 b2 (List.length p1) Hm Hb Hl').
      * rewrite nth_error_app2, Nat.sub_diag by lia. reflexivity.
      * rewrite Hl, nth_error_app2, Nat.sub_diag by lia. reflexivity.
    + apply (IH r2 _ _ a1 a2 n Hm Ha Hl').
      * rewrite nth_error_app1; [exact H1|].
        apply nth_error_Some. congruence.
      * rewrite nth_error_app1; [exact H2|].
        apply nth_error_Some. congruence.
Qed.

(** X12.  The selection looks at no field but [greenIndex]: on two lists of
    records with the same Green Indexes, position by position, it picks the
    records at one and the same position (and throws on both when they are
    empty). *)
Theorem X12_selection_reads_green_index_only (l1 l2 : list EvaluatedRoute) :
  map greenIndex l1 = map greenIndex l2 ->
  (l1 = [] /\ l2 = []
   /\ selectBest l1 = inl reduce_empty_msg
   /\ selectBest l2 = inl reduce_empty_msg)
  \/ exists k b1 b2,
       selectBest l1 = inr b1 /\ selectBest l2 = inr b2
       /\ nth_error l1 k = Some b1 /\ nth_error l2 k = Some b2.
Proof.
  intros Hm. destruct l1 as [|a1 xs1], l2 as [|a2 xs2]; try discriminate Hm.
  - left. repeat split.
  - right. cbn in Hm. injection Hm as Ha Hm.
    destruct (fold_greener_same_position xs1 xs2 [a1] [a2] a1 a2 0 Hm Ha
                eq_refl eq_refl eq_refl) as (k & H1 & H2).
    exists k, (fold_left greener xs1 a1), (fold_left greener xs2 a2).
    repeat split; assumption.
Qed.

Lemma X12_witness :
  let blank e :=
    {| routeIndex := 0; ev_distanceMeters := 0; ev_duration := "";
       aqi := 500; greenIndex := greenIndex e; solar := defaultSolar;
       ev_polyline := None |} in
  (Scenario.exampleRoutes = [] /\ map blank Scenario.exampleRoutes = []
   /\ selectBest Scenario.exampleRoutes = inl reduce_empty_msg
   /\ selectBest (map blank Scenario.exampleRoutes) = inl reduce_empty_msg)
  \/ exists k b1 b2,
       selectBest Scenario.exampleRoutes = inr b1
       /\ selectBest (map blank Scenario.exampleRoutes) = inr b2
       /\ nth_error Scenario.exampleRoutes k = Some b1
       /\ nth_error (map blank Scenario.exampleRoutes) k = Some b2.
Proof.
  intros blank.
  apply (X12_selection_reads_green_index_only Scenario.exampleRoutes
           (map blank Scenario.exampleRoutes)).
  reflexivity.
Defined.

(** ** The loop is sequential *)

Section Loop.
Context {World : Type} (env : Collaborators World).
Implicit Types w : World.

(** The array filled so far does not influence the turns to come. *)
Lemma evaluateRoutes_from_empty routes :
  forall i acc w,
    evaluateRoutes env i routes acc w
    = match evaluateRoutes env i routes [] w with
      | (inr new, w') => (inr (acc ++ new), w')
      | (inl e, w') => (inl e, w')
      end.
Proof.
  induction routes as [|route rest IH]; intros i acc w.
  - cbn. unfold ret. rewrite app_nil_r. reflexivity.
  - cbn [evaluateRoutes]. unfold bind.
    destruct (evaluateRoute env i route w) as [[e0|e] w1]; [reflexivity|].
    rewrite (IH (S i) (acc ++ [e])), (IH (S i) ([] ++ [e])).
    destruct (evaluateRoutes env (S i) rest [] w1) as [[e1|new] w2];
      [reflexivity|].
    rewrite <- app_assoc. reflexivity.
Qed.

(** X14.  The loop is sequential and in order: evaluating the routes
    [pre ++ post] is evaluating [pre], then [post] from the world that left
    and with the indexes continuing; the records of [pre] are the same
    whether or not other routes follow, and come first. *)
Theorem X14_loop_is_sequential pre post w out w' :
  evaluateRoutes env 0 (pre ++ post) [] w = (inr out, w') ->
  exists done w1 rest,
    evaluateRoutes env 0 pre [] w = (inr done, w1)
    /\ evaluateRoutes env (List.length pre) post [] w1 = (inr rest, w')
    /\ out = done ++ rest.
Proof.
  rewrite evaluateRoutes_app. intros H.
  destruct (evaluateRoutes env 0 pre [] w) as [[e|done] w1] eqn:Hpre;
    [discriminate H|].
  rewrite evaluateRoutes_from_empty in H. cbn [Nat.add] in H.
  destruct (evaluateRoutes env (List.length pre) post [] w1)
    as [[e|rest] w2] eqn:Hpost; [discriminate H|].
  injection H as <- <-. exists done, w1, rest. auto.
Qed.

End Loop.

Lemma X14_witness :
  exists done w1 rest,
    evaluateRoutes Scenario.sample 0 [Scenario.routeA] [] ["routes"]
    = (inr done, w1)
    /\ evaluateRoutes Scenario.sample (List.length [Scenario.routeA])
         [Scenario.routeB; Scenario.routeC] [] w1
       = (inr rest,
          ["routes"; "air"; "solar"; "air"; "solar"; "air"; "solar"])
    /\ Scenario.exampleRoutes = done ++ rest.
Proof.
  apply (X14_loop_is_sequential Scenario.sample [Scenario.routeA]
           [Scenario.routeB; Scenario.routeC] ["routes"]).
  vm_compute. reflexivity.
Defined.

(** ** The aqi statistics handed to the explanation *)

Lemma classify_neg_zero x : is_neg_zero x = true -> Prim2SF x = S754_zero true.
Proof.
  unfold is_neg_zero. rewrite FloatAxioms.classify_spec.
  unfold FloatAxioms.SF64classify, SFclassify.
  destruct (Prim2SF x) as [[|]|[|]| |[|] m e]; try discriminate; try reflexivity;
    destruct (Z.eqb _ _); discriminate.
Qed.

Lemma classify_pos_zero x : is_pos_zero x = true -> Prim2SF x = S754_zero false.
Proof.
  unfold is_pos_zero. rewrite FloatAxioms.classify_spec.
  unfold FloatAxioms.SF64classify, SFclassify.
  destruct (Prim2SF x) as [[|]|[|]| |[|] m e]; try discriminate; try reflexivity;
    destruct (Z.eqb _ _); discriminate.
Qed.

(** -0 is not above +0. *)
Lemma neg_zero_leb_pos_zero x y :
  is_neg_zero x = true -> is_pos_zero y = true -> (x <=? y) = true.
Proof.
  intros Hx Hy. apply classify_neg_zero in Hx. apply classify_pos_zero in Hy.
  apply FloatOrder.leb_iff. rewrite !FloatOrder.number_iff.
  unfold sf_number, key. rewrite Hx, Hy.
  split; [discriminate|]. split; [discriminate|]. right. reflexivity.
Qed.

(** Only +Infinity is at least +Infinity, only -Infinity at most
    -Infinity. *)
Lemma infinity_leb x : (infinity <=? x) = true -> x = infinity.
Proof.
  intros H. apply FloatOrder.leb_iff in H. destruct H as (_ & N & K).
  apply FloatOrder.number_iff in N. unfold sf_number in N.
  apply FloatAxioms.Prim2SF_inj.
  change (Prim2SF infinity) with (S754_infinity false).
  unfold key in K. change (Prim2SF infinity) with (S754_infinity false) in K.
  destruct (Prim2SF x) as [s|[|]| |[|] m e]; cbn in K;
    try reflexivity; try congruence; exfalso;
    destruct K as [K|K]; try lia; discriminate K.
Qed.

Lemma leb_neg_infinity x : (x <=? neg_infinity) = true -> x = neg_infinity.
Proof.
  intros H. apply FloatOrder.leb_iff in H. destruct H as (N & _ & K).
  apply FloatOrder.number_iff in N. unfold sf_number in N.
  apply FloatAxioms.Prim2SF_inj.
  change (Prim2SF neg_infinity) with (S754_infinity true).
  unfold key in K. change (Prim2SF neg_infinity) with (S754_infinity true) in K.
  destruct (Prim2SF x) as [s|[|]| |[|] m e]; cbn in K;
    try reflexivity; try congruence; exfalso;
    destruct K as [K|K]; try lia; discriminate K.
Qed.

Lemma math_min_from_spec xs :
  forall lowest,
    number lowest -> Forall number xs ->
    number (math_min_from lowest xs)
    /\ (math_min_from lowest xs <=? lowest) = true
    /\ Forall (fun x => (math_min_from lowest xs <=? x) = true) xs
    /\ (math_min_from lowest xs = lowest \/ In (math_min_from lowest xs) xs).
Proof.
  induction xs as [|x rest IH]; intros lowest Hl Hx; cbn [math_min_from].
  - split; [exact Hl|]. split; [apply FloatOrder.leb_refl, Hl|].
    split; [constructor|left; reflexivity].
  - pose proof (Forall_inv Hx) as Nx. pose proof (Forall_inv_tail Hx) as Nr.
    unfold number in Nx. rewrite Nx.
    set (next := if (is_neg_zero x && is_pos_zero lowest) || (x <? lowest)
                 then x else lowest).
    assert (number next /\ (next <=? lowest) = true /\ (next <=? x) = true
            /\ (next = lowest \/ next = x)) as (Nn & Ll & Lx & Which).
    { unfold next.
      destruct ((is_neg_zero x && is_pos_zero lowest) || (x <? lowest)) eqn:C.
      - split; [exact Nx|]. split; [|split; [apply FloatOrder.leb_refl, Nx|auto]].
        apply orb_true_iff in C. destruct C as [C|C].
        + apply andb_true_iff in C. destruct C.
          apply neg_zero_leb_pos_zero; assumption.
        + apply FloatOrder.ltb_leb, C.
      - split; [exact Hl|]. split; [apply FloatOrder.leb_refl, Hl|].
        split; [|auto].
        apply orb_false_iff in C. destruct C as [_ C].
        apply FloatOrder.not_ltb_leb; assumption. }
    destruct (IH next Nn Nr) as (Nm & Lm & Fm & Im).
    split; [exact Nm|].
    split; [exact (FloatOrder.leb_trans _ _ _ Lm Ll)|].
    split.
    + constructor; [exact (FloatOrder.leb_trans _ _ _ Lm Lx)|exact Fm].
    + destruct Im as [Im|Im]; [|right; right; exact Im].
      rewrite Im. destruct Which as [->| ->]; [left|right; left]; reflexivity.
Qed.

Lemma math_max_from_spec xs :
  forall highest,
    number highest -> Forall number xs ->
    number (math_max_from highest xs)
    /\ (highest <=? math_max_from highest xs) = true
    /\ Forall (fun x => (x <=? math_max_from highest xs) = true) xs
    /\ (math_max_from highest xs = highest
        \/ In (math_max_from highest xs) xs).
Proof.
  induction xs as [|x rest IH]; intros highest Hh Hx; cbn [math_max_from].
  - split; [exact Hh|]. split; [apply FloatOrder.leb_refl, Hh|].
    split; [constructor|left; reflexivity].
  - pose proof (Forall_inv Hx) as Nx. pose proof (Forall_inv_tail Hx) as Nr.
    unfold number in Nx. rewrite Nx.
    set (next := if (is_pos_zero x && is_neg_zero highest) || gtb x highest
                 then x else highest).
    assert (number next /\ (highest <=? next) = true /\ (x <=? next) = true
            /\ (next = highest \/ next = x)) as (Nn & Lh & Lx & Which).
    { unfold next, gtb.
      destruct ((is_pos_zero x && is_neg_zero highest) || (highest <? x)) eqn:C.
      - split; [exact Nx|]. split; [|split; [apply FloatOrder.leb_refl, Nx|auto]].
        apply orb_true_iff in C. destruct C as [C|C].
        + apply andb_true_iff in C. destruct C.
          apply neg_zero_leb_pos_zero; assumption.
        + apply FloatOrder.ltb_leb, C.
      - split; [exact Hh|]. split; [apply FloatOrder.leb_refl, Hh|].
        split; [|auto].
        apply orb_false_iff in C. destruct C as [_ C].
        apply FloatOrder.not_ltb_leb; assumption. }
    destruct (IH next Nn Nr) as (Nm & Lm & Fm & Im).
    split; [exact Nm|].
    split; [exact (FloatOrder.leb_trans _ _ _ Lh Lm)|].
    split.
    + constructor; [exact (FloatOrder.leb_trans _ _ _ Lx Lm)|exact Fm].
    + destruct Im as [Im|Im]; [|right; right; exact Im].
      rewrite Im. destruct Which as [->| ->]; [left|right; left]; reflexivity.
Qed.

(** On at least one number, and numbers only, [Math.min] and [Math.max]
    return one of them, below (resp. above) all of them. *)
Lemma Math_min_max_spec x xs :
  Forall number (x :: xs) ->
  In (Math_min (x :: xs)) (x :: xs) /\ In (Math_max (x :: xs)) (x :: xs)
  /\ Forall (fun y => (Math_min (x :: xs) <=? y) = true
                      /\ (y <=? Math_max (x :: xs)) = true) (x :: xs).
Proof.
  intros H.
  destruct (math_min_from_spec (x :: xs) infinity eq_refl H)
    as (_ & _ & Fmin & Imin).
  destruct (math_max_from_spec (x :: xs) neg_infinity eq_refl H)
    as (_ & _ & Fmax & Imax).
  fold (Math_min (x :: xs)) in *. fold (Math_max (x :: xs)) in *.
  split; [|split].
  - destruct Imin as [E|I]; [|exact I].
    left. pose proof (Forall_inv Fmin) as L. rewrite E in L |- *.
    apply infinity_leb, L.
  - destruct Imax as [E|I]; [|exact I].
    left. pose proof (Forall_inv Fmax) as L. rewrite E in L |- *.
    apply leb_neg_infinity, L.
  - rewrite Forall_forall in *. intros y Hy. split; [apply Fmin|apply Fmax]; exact Hy.
Qed.

Section Statistics.
Context {World : Type} (env : Collaborators World).
Implicit Types w : World.

Lemma evaluateRoute_aqi_number i route w e w' :
  evaluateRoute env i route w = (inr e, w') -> number (aqi e).
Proof.
  intros H.
  destruct (evaluateRoute_resolved_cases env _ _ _ _ _ H)
    as (midpoint & a & s & _ & -> & Hc).
  cbn [aqi]. destruct midpoint as [p|].
  - destruct Hc as (air & w1 & _ & -> & _).
    apply js_truthy_number, extractAqi_truthy.
  - destruct Hc as (-> & _). reflexivity.
Qed.

(** X11.  When the handler succeeds, the [minAQI] and [maxAQI] it hands to
    the explanation are each the aqi of one of the evaluated routes, and
    every evaluated route's aqi lies between them. *)
Theorem X11_aqi_statistics origin destination w message best alts text w' :
  getGreenRoute env origin destination w
  = (Success message best alts text, w') ->
  In (minAQI (summaryOf best alts)) (map aqi alts)
  /\ In (maxAQI (summaryOf best alts)) (map aqi alts)
  /\ forall e, In e alts ->
       (minAQI (summaryOf best alts) <=? aqi e) = true
       /\ (aqi e <=? maxAQI (summaryOf best alts)) = true.
Proof.
  intros H. apply getGreenRoute_success_inv in H.
  apply greenRouteTry_resolved_inv in H.
  destruct H as (rs & w0 & alts' & w1 & best' & text' & _ & He & Hs & _ & E).
  injection E as -> <- <- <-. cbn [minAQI maxAQI summaryOf].
  destruct (evaluateRoutes_resolved_inv env _ _ _ _ _ _ He) as (new & E & _ & N).
  cbn in E. subst new.
  assert (Forall number (map aqi alts)) as F.
  { apply Forall_forall. intros a Ha. apply in_map_iff in Ha.
    destruct Ha as (e & <- & Ie). apply In_nth_error in Ie.
    destruct Ie as [j Hj]. destruct (N _ _ Hj) as (route & v1 & v2 & _ & Hev).
    exact (evaluateRoute_aqi_number _ _ _ _ _ Hev). }
  destruct alts as [|a xs]; [discriminate Hs|].
  cbn [map] in *.
  destruct (Math_min_max_spec _ _ F) as (Imin & Imax & B).
  split; [exact Imin|]. split; [exact Imax|].
  intros e Ie. rewrite Forall_forall in B.
  apply (B (aqi e)). exact (in_map aqi (a :: xs) e Ie).
Qed.

End Statistics.

Lemma X11_witness :
  In (minAQI (summaryOf Scenario.exampleBest Scenario.exampleRoutes))
     (map aqi Scenario.exampleRoutes)
  /\ In (maxAQI (summaryOf Scenario.exampleBest Scenario.exampleRoutes))
        (map aqi Scenario.exampleRoutes)
  /\ forall e, In e Scenario.exampleRoutes ->
       (minAQI (summaryOf Scenario.exampleBest Scenario.exampleRoutes)
        <=? aqi e) = true
       /\ (aqi e
           <=? maxAQI (summaryOf Scenario.exampleBest Scenario.exampleRoutes))
          = true.
Proof.
  apply (X11_aqi_statistics Scenario.sample "A" "B" []
           "Green corridor selected" Scenario.exampleBest
           Scenario.exampleRoutes "Cleaner air on this walk."
           ["routes"; "air"; "solar"; "air"; "solar"; "air"; "solar";
            "gemini"]).
  vm_compute. reflexivity.
Defined.

(** ** The calls a request makes *)

Section Calls.
Context {World : Type} (env : Collaborators World).
Implicit Types (w : World) (log : list Call).

Lemma traced_getSolarIndex la ln w log :
  getSolarIndex (instrument env) la ln (w, log)
  = (fst (getSolarIndex env la ln w),
     (snd (getSolarIndex env la ln w), log ++ [SolarCall])).
Proof.
  unfold getSolarIndex, try_catch, bind, ret. cbn.
  unfold traced. cbn.
  destruct (buildingInsights env la ln w) as [[msg|response] w1]; reflexivity.
Qed.

Lemma traced_getGeminiExplanation d w log :
  getGeminiExplanation (instrument env) d (w, log)
  = (fst (getGeminiExplanation env d w),
     (snd (getGeminiExplanation env d w), log ++ [TextCall])).
Proof.
  unfold getGeminiExplanation, try_catch.
  change (generateContent (instrument env) (prompt (instrument env) d) (w, log))
    with (traced TextCall (generateContent env (prompt env d)) (w, log)).
  unfold traced, ret. cbn [fst snd].
  destruct (generateContent env (prompt env d) w) as [[msg|text] w1];
    reflexivity.
Qed.

(** A loop turn over the wrapped services is the loop turn over the given
    ones, with its calls logged. *)
Lemma traced_evaluateRoute i route w log :
  evaluateRoute (instrument env) i route (w, log)
  = (fst (evaluateRoute env i route w),
     (snd (evaluateRoute env i route w), log ++ callsOfRoute env route w)).
Proof.
  unfold evaluateRoute, callsOfRoute, bind, lift, getAirQuality.
  change (getRouteMidpoint (instrument env) (encodedPathOf route))
    with (getRouteMidpoint env (encodedPathOf route)).
  destruct (getRouteMidpoint env (encodedPathOf route)) as [msg|[p|]].
  - cbn. rewrite app_nil_r. reflexivity.
  - cbn. unfold traced at 1. cbn.
    destruct (currentConditions env (lat p) (lng p) w) as [[msg|air] w1].
    + reflexivity.
    + rewrite traced_getSolarIndex.
      destruct (getSolarIndex env (lat p) (lng p) w1) as [[msg|s] w2];
        cbn; rewrite <- app_assoc; reflexivity.
  - cbn. rewrite app_nil_r. reflexivity.
Qed.

Lemma callsOfRoute_resolved i route w e w' :
  evaluateRoute env i route w = (inr e, w') ->
  callsOfRoute env route w = sampledCalls env route.
Proof.
  intros H.
  destruct (evaluateRoute_resolved_cases env _ _ _ _ _ H)
    as (midpoint & a & s & Hm & _ & Hc).
  unfold callsOfRoute, sampledCalls. rewrite Hm.
  destruct midpoint as [p|]; [|reflexivity].
  destruct Hc as (air & w1 & -> & _). reflexivity.
Qed.

Lemma traced_evaluateRoutes routes :
  forall i acc w log out w' log',
    evaluateRoutes (instrument env) i routes acc (w, log)
    = (inr out, (w', log')) ->
    evaluateRoutes env i routes acc w = (inr out, w')
    /\ log' = log ++ flat_map (sampledCalls env) routes.
Proof.
  induction routes as [|route rest IH]; intros i acc w log out w' log' H.
  - cbn in *. unfold ret in *. injection H as <- <- <-.
    rewrite app_nil_r. auto.
  - cbn [evaluateRoutes flat_map] in *. unfold bind in *.
    rewrite traced_evaluateRoute in H.
    destruct (evaluateRoute env i route w) as [[msg|e] w1] eqn:E; cbn in H;
      [discriminate H|].
    destruct (IH _ _ _ _ _ _ _ H) as [H1 ->].
    split; [exact H1|].
    rewrite (callsOfRoute_resolved _ _ _ _ _ E), app_assoc. reflexivity.
Qed.

(** X15.  A request that succeeds calls the routing service once, then for
    each route in turn, and only for those with a sample point, the
    air-quality service followed by the solar service, and last the
    text-generation service once: no other call, none twice.  Logging the
    calls changes neither the answer nor the world. *)
Theorem X15_calls_of_a_successful_request
    origin destination w log message best alts text w' log' :
  getGreenRoute (instrument env) origin destination (w, log)
  = (Success message best alts text, (w', log')) ->
  getGreenRoute env origin destination w
  = (Success message best alts text, w')
  /\ exists rs w0,
      computeRoutes env origin destination w
      = (inr {| routes := Some rs |}, w0)
      /\ log' = log ++ [RoutesCall] ++ flat_map (sampledCalls env) rs
                    ++ [TextCall].
Proof.
  intros H. apply getGreenRoute_success_inv in H.
  apply greenRouteTry_resolved_inv in H.
  destruct H as (rs & [w0 l0] & alts' & [w1 l1] & best' & text' & Hr & He & Hs
                 & Ht & E).
  injection E as -> <- <- <-.
  cbn in Hr. unfold traced in Hr. cbn in Hr.
  destruct (computeRoutes env origin destination w) as [[msg|rr] v0] eqn:Cr;
    [discriminate Hr|].
  injection Hr as -> -> <-.
  apply traced_evaluateRoutes in He. destruct He as [He ->].
  rewrite traced_getGeminiExplanation in Ht.
  destruct (getGeminiExplanation env (summaryOf best alts) w1)
    as [[msg|t] v1] eqn:Cg; cbn in Ht; [discriminate Ht|].
  injection Ht as -> -> <-.
  split.
  - unfold getGreenRoute, greenRouteTry.
    erewrite bind_resolved; [|exact Cr].
    erewrite bind_resolved; [|reflexivity].
    erewrite bind_resolved; [|exact He].
    erewrite bind_resolved; [|unfold lift; rewrite Hs; reflexivity].
    erewrite bind_resolved; [|exact Cg].
    reflexivity.
  - exists rs, w0. split; [reflexivity|].
    rewrite <- !app_assoc. reflexivity.
Qed.

End Calls.

Lemma X15_witness :
  getGreenRoute Scenario.sample "A" "B" []
  = (Success "Green corridor selected" Scenario.exampleBest
       Scenario.exampleRoutes "Cleaner air on this walk.",
     ["routes"; "air"; "solar"; "air"; "solar"; "air"; "solar"; "gemini"])
  /\ exists rs w0,
      computeRoutes Scenario.sample "A" "B" []
      = (inr {| routes := Some rs |}, w0)
      /\ [RoutesCall; AirCall; SolarCall; AirCall; SolarCall; AirCall;
          SolarCall; TextCall]
         = [] ++ [RoutesCall] ++ flat_map (sampledCalls Scenario.sample) rs
              ++ [TextCall].
Proof.
  apply (X15_calls_of_a_successful_request Scenario.sample "A" "B" [] []).
  vm_compute. reflexivity.
Defined.
